(** * ROI calculator: the calculation engine of [updated_app_py.py]

    The script computes licence cost, fuel savings, payback period, return on
    investment and CO2 reduction for a fleet of vessels.  Its numbers are
    Python [int]s (unbounded integers, modelled by [Z]) and Python [float]s
    (IEEE 754 binary64, modelled by [spec_float] with the operations of
    [SpecFloat] at precision 53 and maximal exponent 1024, rounding to
    nearest, ties to even).  Python raises where IEEE arithmetic would
    return a special value: a float division by zero raises
    [ZeroDivisionError], and the conversion of an integer that is too large
    for a float raises [OverflowError].  Both are modelled by an error
    monad. *)

From Stdlib Require Import ZArith Bool List String Lia.
From Stdlib Require Import Floats.SpecFloat.
Import ListNotations.
Local Open Scope Z_scope.

(** ** Binary64 arithmetic *)

Definition float : Type := spec_float.

Module F64.

Definition prec : Z := 53.
Definition emax : Z := 1024.

Definition mul : float -> float -> float := SFmul prec emax.
Definition div : float -> float -> float := SFdiv prec emax.
Definition add : float -> float -> float := SFadd prec emax.
Definition sub : float -> float -> float := SFsub prec emax.

(** The integer [z] rounded to the nearest float; an integer beyond the
    range of binary64 rounds to an infinity. *)
Definition of_Z (z : Z) : float := binary_normalize prec emax z 0 false.

Definition nan : float := S754_nan.
Definition pos_zero : float := S754_zero false.

Definition is_nan (x : float) : bool :=
  match x with S754_nan => true | _ => false end.

Definition is_zero (x : float) : bool :=
  match x with S754_zero _ => true | _ => false end.

Definition is_inf (x : float) : bool :=
  match x with S754_infinity _ => true | _ => false end.

(** Zeros and the numbers with a mantissa: neither infinite nor NaN. *)
Definition is_finite (x : float) : bool :=
  match x with S754_zero _ | S754_finite _ _ _ => true | _ => false end.

(** A value of binary64: the mantissa of a number fits the format. *)
Definition valid (x : float) : bool := valid_binary prec emax x.

(** The decimal literal [m]e-[k] of the source text, [m * 10^(-k)]: the
    float nearest to it.  Both [m] and [10^k] are below [2^53] wherever
    this is used, so they convert exactly and the one rounding is that of
    the division. *)
Definition dec (m : Z) (k : Z) : float := div (of_Z m) (of_Z (10 ^ k)).

(** The binary exponent of a number: [2^(mag x - 1) <= |x| < 2^(mag x)]. *)
Definition mag (x : float) : Z :=
  match x with
  | S754_finite _ m e => Zpos (digits2_pos m) + e
  | _ => 0
  end.

(** Twice a float, on its representation: the exponent moves up by one
    and the largest binade overflows to the infinity. *)
Definition double (x : float) : float :=
  match x with
  | S754_finite s m e =>
      if e + 1 <=? emax - prec then S754_finite s m (e + 1)
      else S754_infinity s
  | _ => x
  end.

(** What [shr_fexp] does to a mantissa [m] at exponent [e]: the number of
    low bits it drops, the mantissa it leaves and the exponent it yields. *)
Definition shift_of (m e : Z) : Z :=
  Z.max 0 (fexp prec emax (Zdigits2 m + e) - e).
Definition shifted_m (m e : Z) : Z := m / 2 ^ shift_of m e.
Definition shifted_e (m e : Z) : Z := e + shift_of m e.

(** The mantissa has at most 53 bits and the exponent is one of the
    format: what every rounded result satisfies. *)
Definition in_range (x : float) : Prop :=
  match x with
  | S754_finite _ m e => Zpos (digits2_pos m) <= 53 /\ -1074 <= e <= 971
  | _ => True
  end.

(** A positive number, not an infinity. *)
Definition is_pos (x : float) : bool :=
  match x with S754_finite false _ _ => true | _ => false end.

End F64.

(** ** Python semantics of the operations the script uses *)

Module Py.

Inductive exn : Type :=
| ZeroDivisionError
| OverflowError
| KeyError.

Inductive result (A : Type) : Type :=
| Ok (a : A)
| Raise (e : exn).
Arguments Ok {A} a.
Arguments Raise {A} e.

Definition bind {A B : Type} (c : result A) (k : A -> result B) : result B :=
  match c with
  | Ok a => k a
  | Raise e => Raise e
  end.

Definition raises {A : Type} (c : result A) (e : exn) : Prop := c = Raise e.

(** [float(n)] as the mixed operators apply it to an [int] operand:
    correctly rounded, [OverflowError] when the result is not finite. *)
Definition float_of_int (n : Z) : result float :=
  let x := F64.of_Z n in
  if F64.is_inf x then Raise OverflowError else Ok x.

(** Truth value of a float ([x != 0.0]: NaN is true) and of an int. *)
Definition float_bool (x : float) : bool := negb (F64.is_zero x).
Definition int_bool (n : Z) : bool := negb (n =? 0).

(** [x / y] on floats. *)
Definition float_truediv (x y : float) : result float :=
  if F64.is_zero y then Raise ZeroDivisionError else Ok (F64.div x y).

(** [sum(xs)] of CPython up to 3.11: the items are added from left to
    right, starting from the integer [0], which the first addition converts
    to [+0.0]. *)
Definition sum (xs : list float) : float :=
  fold_left F64.add xs F64.pos_zero.

(** [fabs(a) >= fabs(b)]: false when one of them is NaN. *)
Definition fabs_ge (a b : float) : bool := SFleb (SFabs b) (SFabs a).

(** [sum(xs)] of CPython 3.12 and later adds floats with the compensation
    of Neumaier: beside the running sum [f_result] it keeps the rounding
    errors of the additions in [c],

      t = f_result + x
      if fabs(f_result) >= fabs(x): c += (f_result - t) + x
      else:                         c += (x - t) + f_result
      f_result = t

    and adds [c] at the end when it is finite and not zero.  The first
    item is added to the integer [0] before the compensated loop starts. *)
Fixpoint sum_compensated_loop (xs : list float) (f_result c : float) : float :=
  match xs with
  | [] =>
      match c with
      | S754_finite _ _ _ => F64.add f_result c
      | _ => f_result
      end
  | x :: rest =>
      let t := F64.add f_result x in
      let c' :=
        if fabs_ge f_result x
        then F64.add c (F64.add (F64.sub f_result t) x)
        else F64.add c (F64.add (F64.sub x t) f_result) in
      sum_compensated_loop rest t c'
  end.

Definition sum_compensated (xs : list float) : float :=
  match xs with
  | [] => F64.pos_zero
  | x :: rest => sum_compensated_loop rest (F64.add F64.pos_zero x) F64.pos_zero
  end.

(** A [dict] with string keys: insertion-ordered, one entry per key. *)
Definition dict (V : Type) : Type := list (string * V).

Fixpoint dict_get {V : Type} (d : dict V) (k : string) : option V :=
  match d with
  | [] => None
  | (k', v) :: d' => if String.eqb k k' then Some v else dict_get d' k
  end.

(** [d[k] = v]: an existing key keeps its place, a new one goes last. *)
Fixpoint dict_set {V : Type} (d : dict V) (k : string) (v : V) : dict V :=
  match d with
  | [] => [(k, v)]
  | (k', v') :: d' =>
      if String.eqb k k' then (k', v) :: d' else (k', v') :: dict_set d' k v
  end.

(** [d[k]] as an expression. *)
Definition dict_item {V : Type} (d : dict V) (k : string) : result V :=
  match dict_get d k with
  | Some v => Ok v
  | None => Raise KeyError
  end.

Definition keys {V : Type} (d : dict V) : list string := map fst d.
Definition values {V : Type} (d : dict V) : list V := map snd d.

End Py.

Import Py.

Notation "x <- c1 ;; c2" := (Py.bind c1 (fun x => c2))
  (at level 61, c1 at next level, right associativity).
Notation "' pat <- c1 ;; c2" := (Py.bind c1 (fun x => match x with pat => c2 end))
  (at level 61, pat pattern, c1 at next level, right associativity).

(** Mixed [int]/[float] operators: the [int] operand is converted first. *)

Definition int_mul_float (n : Z) (x : float) : result float :=
  a <- float_of_int n ;; Ok (F64.mul a x).

Definition float_mul_int (x : float) (n : Z) : result float :=
  a <- float_of_int n ;; Ok (F64.mul x a).

Definition float_sub_int (x : float) (n : Z) : result float :=
  a <- float_of_int n ;; Ok (F64.sub x a).

Definition float_div_int (x : float) (n : Z) : result float :=
  a <- float_of_int n ;; float_truediv x a.

Definition int_div_float (n : Z) (x : float) : result float :=
  a <- float_of_int n ;; float_truediv a x.

(** ** The script *)

(** Line 17. *)
Definition LICENSE_COST_PER_VESSEL_PER_MONTH : Z := 300.

(** Lines 149-156; the icon of an entry only decorates its label. *)
Record AppInfo : Type := {
  app_min : float;
  app_max : float;
  app_default : float
}.

Definition applications : dict AppInfo := [
  ("Hull Maintainance App"%string,
     {| app_min := F64.dec 0 1; app_max := F64.dec 150 1; app_default := F64.dec 30 1 |});
  ("Voyage Optimization App"%string,
     {| app_min := F64.dec 0 1; app_max := F64.dec 60 1; app_default := F64.dec 20 1 |});
  ("Emission App"%string,
     {| app_min := F64.dec 0 1; app_max := F64.dec 30 1; app_default := F64.dec 15 1 |});
  ("Performance App"%string,
     {| app_min := F64.dec 0 1; app_max := F64.dec 30 1; app_default := F64.dec 10 1 |});
  ("Propulsion Pro"%string,
     {| app_min := F64.dec 0 1; app_max := F64.dec 40 1; app_default := F64.dec 0 1 |});
  ("Bunker management"%string,
     {| app_min := F64.dec 0 1; app_max := F64.dec 70 1; app_default := F64.dec 0 1 |})
].

(** What the widgets of one run return: the check box and, for a selected
    application, the slider. *)
Record ApplicationSelection : Type := {
  selected : bool;
  savingPercent : float
}.

Record Inputs : Type := {
  view_3_years : bool;
  fleet_size : Z;
  fuel_price : float;
  daily_consumption : float;
  operating_days : Z;
  selections : string -> ApplicationSelection
}.

(** Lines 173-175: [selected_apps[app_name] = selected]. *)
Fixpoint fill_selected_apps (sel : string -> ApplicationSelection)
    (names : list string) (selected_apps : dict bool) : dict bool :=
  match names with
  | [] => selected_apps
  | app_name :: rest =>
      fill_selected_apps sel rest
        (dict_set selected_apps app_name (selected (sel app_name)))
  end.

(** Lines 185-194: the slider value of a selected application, [0.0] for
    the others. *)
Fixpoint fill_app_savings (sel : string -> ApplicationSelection)
    (selected_apps : dict bool) (names : list string)
    (app_savings : dict float) : result (dict float) :=
  match names with
  | [] => Ok app_savings
  | app_name :: rest =>
      is_selected <- dict_item selected_apps app_name ;;
      fill_app_savings sel selected_apps rest
        (dict_set app_savings app_name
           (if is_selected then savingPercent (sel app_name) else F64.pos_zero))
  end.

(** Line 197. *)
Definition license_cost_annual (fleet_size : Z) : Z :=
  fleet_size * LICENSE_COST_PER_VESSEL_PER_MONTH * 12.

(** Line 198. *)
Definition baseline_fuel_cost (fleet_size : Z) (daily_consumption : float)
    (operating_days : Z) (fuel_price : float) : result float :=
  a <- int_mul_float fleet_size daily_consumption ;;
  b <- float_mul_int a operating_days ;;
  Ok (F64.mul b fuel_price).

(** Line 206. *)
Definition saving_amount (baseline_fuel_cost saving_percentage : float)
  : result float :=
  float_div_int (F64.mul baseline_fuel_cost saving_percentage) 100.

(** Lines 204-208.  [total_savings] starts as the integer [0]; its first
    [+=] converts it to [+0.0], which is where the accumulator starts here. *)
Fixpoint savings_loop (baseline_fuel_cost : float) (app_savings : dict float)
    (names : list string) (app_saving_amounts : dict float)
    (total_savings : float) : result (dict float * float) :=
  match names with
  | [] => Ok (app_saving_amounts, total_savings)
  | app_name :: rest =>
      saving_percentage <- dict_item app_savings app_name ;;
      amount <- saving_amount baseline_fuel_cost saving_percentage ;;
      savings_loop baseline_fuel_cost app_savings rest
        (dict_set app_saving_amounts app_name amount)
        (F64.add total_savings amount)
  end.

(** Line 211. *)
Definition payback_years (license_cost_annual : Z) (total_savings : float)
  : result float :=
  if float_bool total_savings
  then int_div_float license_cost_annual total_savings
  else Ok F64.nan.

(** Line 212. *)
Definition payback_months (payback_years : float) : result float :=
  if float_bool payback_years
  then float_mul_int payback_years 12
  else Ok F64.nan.

(** Lines 213 and 223: [((savings - cost) / cost) * 100 if cost else nan]. *)
Definition roi_percent (total_savings : float) (license_cost : Z)
  : result float :=
  if int_bool license_cost
  then d <- float_sub_int total_savings license_cost ;;
       q <- float_div_int d license_cost ;;
       float_mul_int q 100
  else Ok F64.nan.

(** Line 216. *)
Definition fuel_saved (app_saving_amounts : dict float) (fuel_price : float)
  : result float :=
  float_truediv (Py.sum (values app_saving_amounts)) fuel_price.

(** Line 217. *)
Definition CO2_FACTOR : float := F64.dec 3114 3.

Definition emissions_reduced (fuel_saved : float) : float :=
  F64.mul fuel_saved CO2_FACTOR.

(** Line 230, the entry of year 2:
    [((total_savings * 2 - license_cost_annual * 2) / (license_cost_annual * 2)) * 100]. *)
Definition roi_year_2 (total_savings : float) (license_cost_annual : Z)
  : result float :=
  s <- float_mul_int total_savings 2 ;;
  d <- float_sub_int s (license_cost_annual * 2) ;;
  q <- float_div_int d (license_cost_annual * 2) ;;
  float_mul_int q 100.

(** Lines 220-232. *)
Record ThreeYear : Type := {
  license_cost_total : Z;
  total_savings_3yr : float;
  roi_percent_3yr : float;
  fuel_saved_3yr : float;
  emissions_reduced_3yr : float;
  years : list Z;
  yearly_savings : list float;
  yearly_roi : list float;
  yearly_fuel_saved : list float;
  cumulative_savings : list float
}.

Definition three_year_view (license_cost_annual : Z)
    (total_savings roi_percent_1yr fuel_saved_1yr emissions_1yr : float)
  : result ThreeYear :=
  let license_cost_total := license_cost_annual * 3 in
  total_savings_3yr <- float_mul_int total_savings 3 ;;
  roi_percent_3yr <- roi_percent total_savings_3yr license_cost_total ;;
  fuel_saved_3yr <- float_mul_int fuel_saved_1yr 3 ;;
  emissions_reduced_3yr <- float_mul_int emissions_1yr 3 ;;
  roi_2 <- roi_year_2 total_savings license_cost_annual ;;
  cumulative_2 <- float_mul_int total_savings 2 ;;
  cumulative_3 <- float_mul_int total_savings 3 ;;
  Ok {| license_cost_total := license_cost_total;
        total_savings_3yr := total_savings_3yr;
        roi_percent_3yr := roi_percent_3yr;
        fuel_saved_3yr := fuel_saved_3yr;
        emissions_reduced_3yr := emissions_reduced_3yr;
        years := [1; 2; 3];
        yearly_savings := repeat total_savings 3;
        yearly_roi := [roi_percent_1yr; roi_2; roi_percent_3yr];
        yearly_fuel_saved := repeat fuel_saved_1yr 3;
        cumulative_savings := [total_savings; cumulative_2; cumulative_3] |}.

(** The numbers the display reads after line 232. *)
Record MetricsResult : Type := {
  licenseCostAnnual : Z;
  baselineFuelCost : float;
  perApplicationSavings : dict float;
  totalSavingsAnnual : float;
  paybackYears : float;
  paybackMonths : float;
  roiPercentAnnual : float;
  fuelSavedTons : float;
  emissionsReducedTons : float;
  threeYear : option ThreeYear
}.

(** Lines 210-232, once the loop has filled [app_saving_amounts] and
    [total_savings]. *)
Definition metrics_after_loop (inp : Inputs) (lca : Z) (bfc : float)
    (amounts : dict float) (total : float) : result MetricsResult :=
  py <- payback_years lca total ;;
  pm <- payback_months py ;;
  roi <- roi_percent total lca ;;
  fs <- fuel_saved amounts (fuel_price inp) ;;
  let er := emissions_reduced fs in
  t3 <- (if view_3_years inp
         then t <- three_year_view lca total roi fs er ;; Ok (Some t)
         else Ok None) ;;
  Ok {| licenseCostAnnual := lca;
        baselineFuelCost := bfc;
        perApplicationSavings := amounts;
        totalSavingsAnnual := total;
        paybackYears := py;
        paybackMonths := pm;
        roiPercentAnnual := roi;
        fuelSavedTons := fs;
        emissionsReducedTons := er;
        threeYear := t3 |}.

(** Lines 159-232, one run of the script on the values of its widgets. *)
Definition compute (inp : Inputs) : result MetricsResult :=
  let names := keys applications in
  let selected_apps := fill_selected_apps (selections inp) names [] in
  app_savings <- fill_app_savings (selections inp) selected_apps names [] ;;
  let lca := license_cost_annual (fleet_size inp) in
  bfc <- baseline_fuel_cost (fleet_size inp) (daily_consumption inp)
           (operating_days inp) (fuel_price inp) ;;
  '(amounts, total) <- savings_loop bfc app_savings names [] F64.pos_zero ;;
  metrics_after_loop inp lca bfc amounts total.

(** ** The run on either [sum]

    The script does not say which interpreter runs it.  [fuel_saved],
    [metrics_after_loop] and [compute] above take the [sum] that adds from
    left to right (CPython up to 3.11); the definitions below are the same
    lines with the [sum] of the interpreter as a parameter. *)
Inductive SumAlgorithm : Type :=
| LeftToRight
| Compensated.

Definition sum_on (alg : SumAlgorithm) (xs : list float) : float :=
  match alg with
  | LeftToRight => Py.sum xs
  | Compensated => Py.sum_compensated xs
  end.

(** Line 216. *)
Definition fuel_saved_on (alg : SumAlgorithm) (app_saving_amounts : dict float)
    (fuel_price : float) : result float :=
  float_truediv (sum_on alg (values app_saving_amounts)) fuel_price.

(** Lines 210-232. *)
Definition metrics_after_loop_on (alg : SumAlgorithm) (inp : Inputs) (lca : Z)
    (bfc : float) (amounts : dict float) (total : float) : result MetricsResult :=
  py <- payback_years lca total ;;
  pm <- payback_months py ;;
  roi <- roi_percent total lca ;;
  fs <- fuel_saved_on alg amounts (fuel_price inp) ;;
  let er := emissions_reduced fs in
  t3 <- (if view_3_years inp
         then t <- three_year_view lca total roi fs er ;; Ok (Some t)
         else Ok None) ;;
  Ok {| licenseCostAnnual := lca;
        baselineFuelCost := bfc;
        perApplicationSavings := amounts;
        totalSavingsAnnual := total;
        paybackYears := py;
        paybackMonths := pm;
        roiPercentAnnual := roi;
        fuelSavedTons := fs;
        emissionsReducedTons := er;
        threeYear := t3 |}.

(** Lines 159-232. *)
Definition compute_on (alg : SumAlgorithm) (inp : Inputs) : result MetricsResult :=
  let names := keys applications in
  let selected_apps := fill_selected_apps (selections inp) names [] in
  app_savings <- fill_app_savings (selections inp) selected_apps names [] ;;
  let lca := license_cost_annual (fleet_size inp) in
  bfc <- baseline_fuel_cost (fleet_size inp) (daily_consumption inp)
           (operating_days inp) (fuel_price inp) ;;
  '(amounts, total) <- savings_loop bfc app_savings names [] F64.pos_zero ;;
  metrics_after_loop_on alg inp lca bfc amounts total.

(** ** The scenario of the specification *)

Definition only_hull (pct : float) (app_name : string) : ApplicationSelection :=
  if String.eqb app_name "Hull Maintainance App"
  then {| selected := true; savingPercent := pct |}
  else {| selected := false; savingPercent := F64.pos_zero |}.

Definition scenario : Inputs := {|
  view_3_years := false;
  fleet_size := 10;
  fuel_price := F64.dec 5500 1;
  daily_consumption := F64.dec 500 1;
  operating_days := 330;
  selections := only_hull (F64.dec 30 1)
|}.

(** The default fleet (10 vessels, 50.0 tons a day, 330 days, 550.0 dollars
    a ton) with three applications selected, their sliders at 8.96, 1.76
    and 1.12 percent: all within the ranges of the widgets. *)
Definition three_selected (app_name : string) : ApplicationSelection :=
  match dict_get
          [("Hull Maintainance App"%string,
            {| selected := true; savingPercent := F64.dec 896 2 |});
           ("Voyage Optimization App"%string,
            {| selected := true; savingPercent := F64.dec 176 2 |});
           ("Emission App"%string,
            {| selected := true; savingPercent := F64.dec 112 2 |})] app_name with
  | Some s => s
  | None => {| selected := false; savingPercent := F64.pos_zero |}
  end.

Definition scenario_three_selected : Inputs := {|
  view_3_years := false;
  fleet_size := 10;
  fuel_price := F64.dec 5500 1;
  daily_consumption := F64.dec 500 1;
  operating_days := 330;
  selections := three_selected
|}.

(** The emissions follow the fuel saved, and the fuel saved is the total
    saving converted back to tons at the fuel price. *)
Definition emissions_from_total (inp : Inputs) (r : MetricsResult) : Prop :=
  emissionsReducedTons r = F64.mul (fuelSavedTons r) (F64.dec 3114 3) /\
  fuelSavedTons r = F64.div (totalSavingsAnnual r) (fuel_price inp).

(** ** Closed forms of what the loops compute *)

(** The percentage line 206 reads for an application: lines 186-194. *)
Definition effective_saving_percent (s : ApplicationSelection) : float :=
  if selected s then savingPercent s else F64.pos_zero.

Definition amount_of (bfc pct : float) : float :=
  F64.div (F64.mul bfc pct) (F64.of_Z 100).

Definition amounts_of (sel : string -> ApplicationSelection) (bfc : float)
    (names : list string) : dict float :=
  map (fun k => (k, amount_of bfc (effective_saving_percent (sel k)))) names.

(** ** Further inputs *)

(** Hull Maintainance at 20 percent, above the 15 of its slider. *)
Definition scenario_above_max : Inputs := {|
  view_3_years := true;
  fleet_size := 10;
  fuel_price := F64.dec 5500 1;
  daily_consumption := F64.dec 500 1;
  operating_days := 330;
  selections := only_hull (F64.dec 200 1)
|}.

(** No vessel, with the three-year view. *)
Definition scenario_no_vessel : Inputs := {|
  view_3_years := true;
  fleet_size := 0;
  fuel_price := F64.dec 5500 1;
  daily_consumption := F64.dec 500 1;
  operating_days := 330;
  selections := only_hull (F64.dec 30 1)
|}.



(** A daily consumption and a fuel price of 1e308 each: the baseline fuel
    cost overflows to the infinity. *)
Definition overflow_case : Inputs := {|
  view_3_years := false;
  fleet_size := 10;
  fuel_price := F64.of_Z (10 ^ 308);
  daily_consumption := F64.of_Z (10 ^ 308);
  operating_days := 330;
  selections := only_hull (F64.dec 30 1)
|}.

(** No application selected, each slider left at 5.0. *)
Definition nothing_selected (app_name : string) : ApplicationSelection :=
  {| selected := false; savingPercent := F64.dec 50 1 |}.

Definition overflow_nothing_selected : Inputs := {|
  view_3_years := false;
  fleet_size := 10;
  fuel_price := F64.of_Z (10 ^ 308);
  daily_consumption := F64.of_Z (10 ^ 308);
  operating_days := 330;
  selections := nothing_selected
|}.

Definition scenario_nothing_selected : Inputs := {|
  view_3_years := false;
  fleet_size := 10;
  fuel_price := F64.dec 5500 1;
  daily_consumption := F64.dec 500 1;
  operating_days := 330;
  selections := nothing_selected
|}.

(** ** The properties claimed of a run *)

(** The entries of the selected applications, in the order of the catalog. *)
Definition selected_entries (inp : Inputs) (d : dict float) : dict float :=
  filter (fun kv => selected (selections inp (fst kv))) d.

(** An unselected application has a zero entry, and the total is the sum
    of the entries of the selected applications alone. *)
Definition unselected_contribute_nothing (inp : Inputs) (r : MetricsResult)
  : Prop :=
  (forall k, In k (keys applications) ->
     selected (selections inp k) = false ->
     exists z, dict_get (perApplicationSavings r) k = Some z /\
               F64.is_zero z = true) /\
  totalSavingsAnnual r =
    Py.sum (values (selected_entries inp (perApplicationSavings r))).

Definition no_application_selected (inp : Inputs) : Prop :=
  forall k, In k (keys applications) -> selected (selections inp k) = false.

(** No saving, no payback, and the whole licence cost lost. *)
Definition nothing_saved (r : MetricsResult) : Prop :=
  F64.is_zero (totalSavingsAnnual r) = true /\
  F64.is_nan (paybackMonths r) = true /\
  (0 < licenseCostAnnual r -> roiPercentAnnual r = F64.of_Z (-100)).

(** Payback and ROI as the specification describes them: NaN exactly for
    a zero denominator, the quotient otherwise. *)
Definition sentinel_contract (r : MetricsResult) : Prop :=
  let lca := licenseCostAnnual r in
  let total := totalSavingsAnnual r in
  (F64.is_nan (paybackYears r) = true <-> F64.is_zero total = true) /\
  (F64.is_nan (paybackMonths r) = true <-> F64.is_zero total = true) /\
  (F64.is_zero total = false ->
     paybackYears r = F64.div (F64.of_Z lca) total /\
     paybackMonths r = F64.mul (paybackYears r) (F64.of_Z 12)) /\
  (F64.is_nan (roiPercentAnnual r) = true <-> lca = 0) /\
  (lca <> 0 ->
     roiPercentAnnual r =
       F64.mul (F64.div (F64.sub total (F64.of_Z lca)) (F64.of_Z lca))
               (F64.of_Z 100)).

(** A zero or NaN: what is left of a product with [+0.0]. *)
Definition zero_or_nan (x : float) : bool := F64.is_zero x || F64.is_nan x.

(** A positive number of magnitude [2^(lo-1)] or more; a zero or such a
    number. *)
Definition pos_mag (lo : Z) (x : float) : Prop :=
  match x with
  | S754_finite false m e => lo <= Zpos (digits2_pos m) + e
  | _ => False
  end.

Definition zero_or_pos_mag (lo : Z) (x : float) : Prop :=
  match x with
  | S754_zero _ => True
  | _ => pos_mag lo x
  end.

(** [x >= 1.0]: the smallest value the input fields of lines 141-142
    accept. *)
Definition at_least_one (x : float) : bool :=
  match x with
  | S754_finite false m e => 1 <=? Zpos (digits2_pos m) + e
  | _ => false
  end.

(** A percentage that is zero or at least [2^-1014]: its share of a
    baseline of one dollar or more does not underflow. *)
Definition percent_in_range (x : float) : bool :=
  match x with
  | S754_zero _ => true
  | S754_finite false m e => -1013 <=? Zpos (digits2_pos m) + e
  | _ => false
  end.

Definition with_fleet_size (inp : Inputs) (n : Z) : Inputs := {|
  view_3_years := view_3_years inp;
  fleet_size := n;
  fuel_price := fuel_price inp;
  daily_consumption := daily_consumption inp;
  operating_days := operating_days inp;
  selections := selections inp
|}.

(** Every cost and saving of [r2] is twice that of [r1]. *)
Definition fleet_doubling (r1 r2 : MetricsResult) : Prop :=
  licenseCostAnnual r2 = 2 * licenseCostAnnual r1 /\
  baselineFuelCost r2 = F64.double (baselineFuelCost r1) /\
  perApplicationSavings r2 =
    map (fun kv => (fst kv, F64.double (snd kv))) (perApplicationSavings r1) /\
  totalSavingsAnnual r2 = F64.double (totalSavingsAnnual r1).

(** One vessel burning 1e308 tons a day at one dollar a ton, Hull
    Maintainance at 0.5 percent: finite, and infinite for two vessels. *)
Definition near_overflow : Inputs := {|
  view_3_years := false;
  fleet_size := 1;
  fuel_price := F64.dec 10 1;
  daily_consumption := F64.of_Z (10 ^ 308);
  operating_days := 1;
  selections := only_hull (F64.dec 5 1)
|}.

(** The scenario with fuel at no cost, the price entered as [-0.0]. *)
Definition scenario_zero_price : Inputs := {|
  view_3_years := false;
  fleet_size := 10;
  fuel_price := S754_zero true;
  daily_consumption := F64.dec 500 1;
  operating_days := 330;
  selections := only_hull (F64.dec 30 1)
|}.

(** [x >= 0] on a float: true for the zeros, the positive numbers and the
    positive infinity; false for NaN. *)
Definition float_ge_zero (x : float) : bool :=
  SFleb (S754_zero false) x.

(** ** The savings charts (lines 303-339) *)

(** [amount > 0] on a float: false for NaN, for the zeros and below. *)
Definition float_gt_zero (x : float) : bool :=
  SFltb (S754_zero false) x.

(** Line 304: the entries with a positive saving, in the order of the
    dictionary. *)
Definition filtered_app_savings (app_saving_amounts : dict float) : dict float :=
  filter (fun kv => float_gt_zero (snd kv)) app_saving_amounts.

(** Lines 306-338 and 348-370: both panels draw the filtered entries (the
    applications and their annual savings; the label of a bar adds the icon
    of the application to its name), or show the message that nothing is
    selected when the filtered dictionary is empty. *)
Inductive Panel : Type :=
| Chart (applications_column : list string) (savings_column : list float)
| InfoMessage.

Definition savings_panel (app_saving_amounts : dict float) : Panel :=
  match filtered_app_savings app_saving_amounts with
  | [] => InfoMessage
  | d => Chart (keys d) (values d)
  end.

(** * Facts about binary64 rounding *)

Section RoundingFacts.

Import F64.

Lemma fexp_eq x : fexp prec emax x = Z.max (x - 53) (-1074).
Proof. reflexivity. Qed.

Lemma digits2_size p : digits2_pos p = Pos.size p.
Proof. induction p; simpl; congruence. Qed.

Lemma Zdigits2_log2 z : 0 < z -> Zdigits2 z = Z.log2 z + 1.
Proof.
  destruct z as [|p|p]; try lia. intros _. simpl.
  rewrite digits2_size. destruct p; simpl; lia.
Qed.

Lemma Zdigits2_0 : Zdigits2 0 = 0.
Proof. reflexivity. Qed.

Lemma Zdigits2_nonneg z : 0 <= Zdigits2 z.
Proof. destruct z; simpl; lia. Qed.

Lemma Zdigits2_pos z : 0 < z -> 0 < Zdigits2 z.
Proof. destruct z; simpl; lia. Qed.

Lemma Zdigits2_bounds z :
  0 < z -> 2 ^ (Zdigits2 z - 1) <= z < 2 ^ Zdigits2 z.
Proof.
  intros H. rewrite Zdigits2_log2 by assumption.
  replace (Z.log2 z + 1 - 1) with (Z.log2 z) by lia.
  apply Z.log2_spec; assumption.
Qed.

Lemma Zdigits2_unique z k :
  0 < k -> 2 ^ (k - 1) <= z < 2 ^ k -> Zdigits2 z = k.
Proof.
  intros Hk H.
  assert (0 < z) by (pose proof (Z.pow_pos_nonneg 2 (k - 1)); lia).
  rewrite Zdigits2_log2 by assumption.
  rewrite (Z.log2_unique z (k - 1)); try lia.
  replace (Z.succ (k - 1)) with k by lia. assumption.
Qed.

Lemma Zdigits2_le a b : 0 <= a <= b -> Zdigits2 a <= Zdigits2 b.
Proof.
  intros [Ha Hab]. destruct (Z.eq_dec a 0) as [->|Hn].
  - apply Zdigits2_nonneg.
  - rewrite !Zdigits2_log2 by lia.
    pose proof (Z.log2_le_mono a b Hab). lia.
Qed.

Lemma Zdigits2_div_pow2 a n :
  0 < a -> 0 <= n -> n < Zdigits2 a ->
  0 < a / 2 ^ n /\ Zdigits2 (a / 2 ^ n) = Zdigits2 a - n.
Proof.
  intros Ha Hn Hlt.
  rewrite Zdigits2_log2 in Hlt by assumption.
  assert (Hs : Z.shiftr a n = a / 2 ^ n) by (apply Z.shiftr_div_pow2; lia).
  assert (Hz : Z.shiftr a n <> 0).
  { intros E. apply Z.shiftr_eq_0_iff in E. lia. }
  assert (0 <= Z.shiftr a n) by (apply Z.shiftr_nonneg; lia).
  rewrite <- Hs. split; [lia|].
  rewrite !Zdigits2_log2 by lia.
  rewrite Z.log2_shiftr by assumption. lia.
Qed.

Lemma Zdigits2_div_pow2_small a n :
  0 <= a -> 0 <= n -> Zdigits2 a <= n -> a / 2 ^ n = 0.
Proof.
  intros Ha Hn Hle. destruct (Z.eq_dec a 0) as [->|Hne].
  - apply Z.div_0_l. pose proof (Z.pow_pos_nonneg 2 n). lia.
  - apply Z.div_small. split; [lia|].
    pose proof (Zdigits2_bounds a ltac:(lia)) as [_ H].
    eapply Z.lt_le_trans; [exact H|]. apply Z.pow_le_mono_r; lia.
Qed.

Lemma Zdigits2_mul_pow2 a n :
  0 < a -> 0 <= n -> Zdigits2 (a * 2 ^ n) = Zdigits2 a + n.
Proof.
  intros Ha Hn.
  assert (0 < a * 2 ^ n) by (pose proof (Z.pow_pos_nonneg 2 n); nia).
  rewrite !Zdigits2_log2 by assumption.
  rewrite Z.log2_mul_pow2 by lia. lia.
Qed.

(** shifting right *)

Lemma shr_1_m mrs : 0 <= shr_m mrs -> shr_m (shr_1 mrs) = shr_m mrs / 2.
Proof.
  destruct mrs as [m r s]. simpl. intros H.
  destruct m as [|p|p]; try lia.
  - reflexivity.
  - destruct p as [p|p|]; simpl.
    + rewrite Pos2Z.inj_xI. apply Z.div_unique with 1; lia.
    + rewrite Pos2Z.inj_xO. apply Z.div_unique with 0; lia.
    + reflexivity.
Qed.

Lemma iter_pos_shr_m p : forall mrs,
  0 <= shr_m mrs ->
  shr_m (iter_pos shr_1 p mrs) = shr_m mrs / 2 ^ Zpos p.
Proof.
  assert (Hpos : forall mrs, 0 <= shr_m mrs -> 0 <= shr_m (shr_1 mrs)).
  { intros mrs H. rewrite shr_1_m by assumption. apply Z.div_pos; lia. }
  induction p as [p IH|p IH|]; intros mrs H; cbn [iter_pos].
  - assert (H1 := Hpos _ H).
    assert (H2 : 0 <= shr_m (iter_pos shr_1 p (shr_1 mrs))).
    { rewrite IH by assumption. apply Z.div_pos; [assumption|]. apply Z.pow_pos_nonneg; lia. }
    rewrite IH by assumption. rewrite IH by assumption. rewrite shr_1_m by assumption.
    rewrite !Z.div_div by (try apply Z.pow_pos_nonneg; lia).
    f_equal. rewrite <- !Z.pow_add_r by lia.
    change 2 with (2 ^ 1) at 1. rewrite <- Z.pow_add_r by lia. f_equal. lia.
  - assert (H2 : 0 <= shr_m (iter_pos shr_1 p mrs)).
    { rewrite IH by assumption. apply Z.div_pos; [assumption|]. apply Z.pow_pos_nonneg; lia. }
    rewrite IH by assumption. rewrite IH by assumption.
    rewrite !Z.div_div by (try apply Z.pow_pos_nonneg; lia).
    f_equal. rewrite <- !Z.pow_add_r by lia. f_equal. lia.
  - rewrite shr_1_m by assumption. reflexivity.
Qed.

Lemma shr_spec mrs e n :
  0 <= shr_m mrs ->
  shr_m (fst (shr mrs e n)) = shr_m mrs / 2 ^ Z.max 0 n /\
  snd (shr mrs e n) = e + Z.max 0 n.
Proof.
  intros H. destruct n as [|p|p]; simpl.
  - rewrite Z.div_1_r. split; [reflexivity|lia].
  - rewrite iter_pos_shr_m by assumption. split; reflexivity.
  - rewrite Z.div_1_r. split; [reflexivity|lia].
Qed.

Lemma shr_record_of_loc_m m l : shr_m (shr_record_of_loc m l) = m.
Proof. destruct l as [|[]]; reflexivity. Qed.

Lemma shr_fexp_spec m e l :
  0 <= m ->
  shr_m (fst (shr_fexp prec emax m e l)) = m / 2 ^ shift_of m e /\
  snd (shr_fexp prec emax m e l) = e + shift_of m e.
Proof.
  intros H. unfold shr_fexp, shift_of.
  pose proof (shr_spec (shr_record_of_loc m l) e
                (fexp prec emax (Zdigits2 m + e) - e)) as S.
  rewrite shr_record_of_loc_m in S. apply S. assumption.
Qed.

Lemma round_nearest_even_bounds m l :
  m <= round_nearest_even m l <= m + 1.
Proof.
  destruct l as [|[]]; simpl; try lia.
  destruct (Z.even m); lia.
Qed.

Lemma shift_of_nonneg m e : 0 <= shift_of m e.
Proof. unfold shift_of. lia. Qed.

Lemma shifted_m_nonneg m e : 0 <= m -> 0 <= shifted_m m e.
Proof.
  intros H. unfold shifted_m. apply Z.div_pos; [assumption|].
  apply Z.pow_pos_nonneg; [lia|apply shift_of_nonneg].
Qed.

Lemma shifted_e_ge_emin m e : -1074 <= shifted_e m e.
Proof. unfold shifted_e, shift_of. rewrite fexp_eq. lia. Qed.

Lemma shifted_digits_le m e : 0 <= m -> Zdigits2 (shifted_m m e) <= 53.
Proof.
  intros H. unfold shifted_m.
  destruct (Z.eq_dec m 0) as [->|Hne].
  - rewrite Z.div_0_l; [simpl; lia|].
    pose proof (Z.pow_pos_nonneg 2 (shift_of 0 e) ltac:(lia) (shift_of_nonneg 0 e)). lia.
  - pose proof (shift_of_nonneg m e) as Hn.
    destruct (Z_lt_le_dec (shift_of m e) (Zdigits2 m)) as [Hlt|Hge].
    + destruct (Zdigits2_div_pow2 m (shift_of m e)) as [_ ->]; try lia.
      unfold shift_of in *. rewrite fexp_eq in *. lia.
    + rewrite Zdigits2_div_pow2_small by lia. simpl; lia.
Qed.

Lemma shifted_big m e :
  0 < m -> -1074 < Zdigits2 m + e ->
  0 < shifted_m m e /\
  Zdigits2 (shifted_m m e) + shifted_e m e = Zdigits2 m + e.
Proof.
  intros Hm Hbig. unfold shifted_m, shifted_e.
  pose proof (shift_of_nonneg m e) as Hn.
  assert (Hlt : shift_of m e < Zdigits2 m).
  { pose proof (Zdigits2_pos m Hm). unfold shift_of. rewrite fexp_eq. lia. }
  destruct (Zdigits2_div_pow2 m (shift_of m e)) as [Hp ->]; try lia.
Qed.

(** The two shifts and the rounding between them, on integers. *)
Lemma binary_round_aux_spec s m e l :
  0 <= m ->
  exists m1,
    shifted_m m e <= m1 <= shifted_m m e + 1 /\
    binary_round_aux prec emax s m e l =
      match shifted_m m1 (shifted_e m e) with
      | Z0 => S754_zero s
      | Zpos p =>
          if shifted_e m1 (shifted_e m e) <=? emax - prec
          then S754_finite s p (shifted_e m1 (shifted_e m e))
          else S754_infinity s
      | Zneg _ => S754_nan
      end.
Proof.
  intros Hm. unfold binary_round_aux.
  destruct (shr_fexp_spec m e l Hm) as [Hm1 He1].
  destruct (shr_fexp prec emax m e l) as [mrs' e'] eqn:E1. simpl in Hm1, He1.
  set (m1 := round_nearest_even (shr_m mrs') (loc_of_shr_record mrs')).
  assert (Hr : shr_m mrs' <= m1 <= shr_m mrs' + 1) by apply round_nearest_even_bounds.
  assert (H0 : 0 <= shr_m mrs').
  { rewrite Hm1. apply (shifted_m_nonneg m e Hm). }
  destruct (shr_fexp_spec m1 e' loc_Exact ltac:(lia)) as [Hm2 He2].
  destruct (shr_fexp prec emax m1 e' loc_Exact) as [mrs'' e''] eqn:E2.
  simpl in Hm2, He2.
  exists m1. split.
  - unfold shifted_m. rewrite <- Hm1. exact Hr.
  - unfold shifted_m, shifted_e. rewrite <- He1, <- He2, <- Hm2. reflexivity.
Qed.

Lemma binary_round_aux_shape s m e l :
  0 <= m ->
  binary_round_aux prec emax s m e l = S754_zero s \/
  binary_round_aux prec emax s m e l = S754_infinity s \/
  exists p e2,
    binary_round_aux prec emax s m e l = S754_finite s p e2 /\
    Zpos (digits2_pos p) <= 53 /\ -1074 <= e2 <= 971.
Proof.
  intros Hm. destruct (binary_round_aux_spec s m e l Hm) as (m1 & Hr & ->).
  assert (H1 : 0 <= m1) by (pose proof (shifted_m_nonneg m e Hm); lia).
  pose proof (shifted_m_nonneg m1 (shifted_e m e) H1) as H2.
  pose proof (shifted_digits_le m1 (shifted_e m e) H1) as Hd.
  pose proof (shifted_e_ge_emin m1 (shifted_e m e)) as He.
  destruct (shifted_m m1 (shifted_e m e)) as [|p|p]; try lia.
  - left; reflexivity.
  - right. change (emax - prec) with 971.
    destruct (Z.leb_spec (shifted_e m1 (shifted_e m e)) 971).
    + right. exists p, (shifted_e m1 (shifted_e m e)). cbn [Zdigits2] in Hd. repeat split; lia.
    + left; reflexivity.
Qed.

Lemma binary_round_aux_big s m e l :
  0 < m -> -1074 < Zdigits2 m + e ->
  binary_round_aux prec emax s m e l = S754_infinity s \/
  exists p e2,
    binary_round_aux prec emax s m e l = S754_finite s p e2 /\
    Zdigits2 m + e <= Zpos (digits2_pos p) + e2 /\
    Zpos (digits2_pos p) <= 53 /\ -1074 <= e2 <= 971.
Proof.
  intros Hm Hbig.
  destruct (binary_round_aux_spec s m e l ltac:(lia)) as (m1 & Hr & ->).
  destruct (shifted_big m e Hm Hbig) as [Hp Hmag].
  assert (H1 : 0 < m1) by lia.
  assert (Hd1 : Zdigits2 (shifted_m m e) <= Zdigits2 m1) by (apply Zdigits2_le; lia).
  destruct (shifted_big m1 (shifted_e m e) H1 ltac:(lia)) as [Hp2 Hmag2].
  pose proof (shifted_digits_le m1 (shifted_e m e) ltac:(lia)) as Hd.
  pose proof (shifted_e_ge_emin m1 (shifted_e m e)) as He.
  destruct (shifted_m m1 (shifted_e m e)) as [|p|p]; try lia.
  change (emax - prec) with 971.
  destruct (Z.leb_spec (shifted_e m1 (shifted_e m e)) 971).
  - right. exists p, (shifted_e m1 (shifted_e m e)). cbn [Zdigits2] in Hd, Hmag2. repeat split; lia.
  - left; reflexivity.
Qed.

(** Aligning to a smaller exponent, and rounding a mantissa that may be short *)

Lemma iter_xO_spec m d : Zpos (Pos.iter xO m d) = Zpos m * 2 ^ Zpos d.
Proof.
  rewrite (Pos.iter_swap_gen _ _ Zpos xO (Z.mul 2)) by reflexivity.
  change (Pos.iter (Z.mul 2) (Z.pos m) d) with (Z.shiftl (Z.pos m) (Z.pos d)).
  apply Z.shiftl_mul_pow2. lia.
Qed.

Lemma shl_align_spec mx ex ex' :
  Zdigits2 (Zpos (fst (shl_align mx ex ex'))) + snd (shl_align mx ex ex') =
    Zdigits2 (Zpos mx) + ex /\
  snd (shl_align mx ex ex') = Z.min ex ex' /\
  Zpos (fst (shl_align mx ex ex')) = Zpos mx * 2 ^ (ex - Z.min ex ex').
Proof.
  unfold shl_align. destruct (ex' - ex) as [|d|d] eqn:E; cbn [fst snd].
  - replace (Z.min ex ex') with ex by lia. rewrite Z.sub_diag. simpl (2 ^ 0). lia.
  - replace (Z.min ex ex') with ex by lia. rewrite Z.sub_diag. simpl (2 ^ 0). lia.
  - replace (Z.min ex ex') with ex' by lia.
    rewrite iter_xO_spec.
    rewrite Zdigits2_mul_pow2 by lia.
    replace (ex - ex') with (Z.pos d) by lia. lia.
Qed.

Lemma binary_round_shape s mx ex :
  binary_round prec emax s mx ex = S754_zero s \/
  binary_round prec emax s mx ex = S754_infinity s \/
  exists p e2,
    binary_round prec emax s mx ex = S754_finite s p e2 /\
    Zpos (digits2_pos p) <= 53 /\ -1074 <= e2 <= 971.
Proof.
  unfold binary_round.
  destruct (shl_align mx ex _) as [mz ez].
  apply binary_round_aux_shape. lia.
Qed.

Lemma binary_round_big s mx ex :
  -1074 < Zpos (digits2_pos mx) + ex ->
  binary_round prec emax s mx ex = S754_infinity s \/
  exists p e2,
    binary_round prec emax s mx ex = S754_finite s p e2 /\
    Zpos (digits2_pos mx) + ex <= Zpos (digits2_pos p) + e2 /\
    Zpos (digits2_pos p) <= 53 /\ -1074 <= e2 <= 971.
Proof.
  intros Hbig. unfold binary_round.
  destruct (shl_align_spec mx ex (fexp prec emax (Z.pos (digits2_pos mx) + ex)))
    as (Hmag & _ & _).
  destruct (shl_align mx ex _) as [mz ez]. cbn [fst snd] in Hmag.
  destruct (binary_round_aux_big s (Zpos mz) ez loc_Exact) as [H|(p & e2 & H & Hge & Hr)];
    try lia.
  - cbn [Zdigits2] in *. lia.
  - left; exact H.
  - right. exists p, e2. cbn [Zdigits2] in *. repeat split; try assumption; lia.
Qed.

End RoundingFacts.

(** * Facts about the operations *)

Section OperationFacts.

Import F64.

Lemma of_Z_0 : of_Z 0 = S754_zero false.
Proof. reflexivity. Qed.

Lemma of_Z_pos n :
  0 < n ->
  of_Z n = S754_infinity false \/
  exists p e, of_Z n = S754_finite false p e /\ 1 <= Zpos (digits2_pos p) + e /\
              Zpos (digits2_pos p) <= 53 /\ -1074 <= e <= 971.
Proof.
  intros H. destruct n as [|q|q]; try lia.
  unfold of_Z, binary_normalize.
  destruct (binary_round_big false q 0) as [E|(p & e & E & Hm & Hr)].
  - lia.
  - left; exact E.
  - right. exists p, e. repeat split; try tauto; lia.
Qed.

Lemma of_Z_neg n :
  n < 0 ->
  of_Z n = S754_infinity true \/
  exists p e, of_Z n = S754_finite true p e /\ 1 <= Zpos (digits2_pos p) + e /\
              Zpos (digits2_pos p) <= 53 /\ -1074 <= e <= 971.
Proof.
  intros H. destruct n as [|q|q]; try lia.
  unfold of_Z, binary_normalize.
  destruct (binary_round_big true q 0) as [E|(p & e & E & Hm & Hr)].
  - lia.
  - left; exact E.
  - right. exists p, e. repeat split; try tauto; lia.
Qed.

(** A conversion that succeeds yields [+0.0] for [0] and otherwise a number
    of the sign of the integer, at least [1] in magnitude. *)
Lemma float_of_int_Ok n x :
  float_of_int n = Ok x ->
  x = of_Z n /\
  ((n = 0 /\ x = S754_zero false) \/
   (n <> 0 /\ exists p e, x = S754_finite (n <? 0) p e /\
       1 <= Zpos (digits2_pos p) + e /\
       Zpos (digits2_pos p) <= 53 /\ -1074 <= e <= 971)).
Proof.
  unfold float_of_int. intros H.
  destruct (Z.lt_trichotomy n 0) as [Hn|[Hn|Hn]].
  - destruct (of_Z_neg n Hn) as [E|(p & e & E & Hr)]; rewrite E in H; simpl in H.
    + discriminate.
    + inversion H; subst x. split; [symmetry; exact E|]. right. split; [lia|].
      exists p, e. replace (n <? 0) with true by (symmetry; apply Z.ltb_lt; lia).
      tauto.
  - subst n. rewrite of_Z_0 in *. simpl in H. inversion H. split; [reflexivity|].
    left; split; reflexivity.
  - destruct (of_Z_pos n Hn) as [E|(p & e & E & Hr)]; rewrite E in H; simpl in H.
    + discriminate.
    + inversion H; subst x. split; [symmetry; exact E|]. right. split; [lia|].
      exists p, e. replace (n <? 0) with false by (symmetry; apply Z.ltb_ge; lia).
      tauto.
Qed.

Lemma float_of_int_never_zero_division n :
  float_of_int n <> Raise ZeroDivisionError.
Proof. unfold float_of_int. destruct (is_inf (of_Z n)); discriminate. Qed.

Lemma div_eucl_div_mod a b : Z.div_eucl a b = (a / b, a mod b).
Proof. unfold Z.div, Z.modulo. destruct (Z.div_eucl a b); reflexivity. Qed.

(** The exponent the division works at, and the quotient of the mantissas. *)
Lemma div_finite sx mx ex sy my ey :
  div (S754_finite sx mx ex) (S754_finite sy my ey) =
    let e' := Z.min (fexp prec emax (Zdigits2 (Zpos mx) + ex - (Zdigits2 (Zpos my) + ey)))
                    (ex - ey) in
    let a := Zpos mx * 2 ^ (ex - ey - e') in
    binary_round_aux prec emax (xorb sx sy) (a / Zpos my) e'
      (new_location (Zpos my) (a mod Zpos my)).
Proof.
  unfold div, SFdiv, SFdiv_core_binary.
  cbv zeta.
  set (e' := Z.min _ (ex - ey)).
  assert (Hs : 0 <= ex - ey - e') by (subst e'; lia).
  replace (match ex - ey - e' with
           | 0 => Z.pos mx
           | Z.pos _ => Z.shiftl (Z.pos mx) (ex - ey - e')
           | Z.neg _ => 0
           end) with (Z.pos mx * 2 ^ (ex - ey - e')).
  - rewrite div_eucl_div_mod. reflexivity.
  - destruct (ex - ey - e') as [|k|k] eqn:E; try lia.
    symmetry. apply Z.shiftl_mul_pow2. lia.
Qed.

Lemma div_finite_shape sx mx ex sy my ey :
  let z := div (S754_finite sx mx ex) (S754_finite sy my ey) in
  z = S754_zero (xorb sx sy) \/ z = S754_infinity (xorb sx sy) \/
  exists p e, z = S754_finite (xorb sx sy) p e /\
              Zpos (digits2_pos p) <= 53 /\ -1074 <= e <= 971.
Proof.
  cbv zeta. rewrite div_finite. cbv zeta.
  apply binary_round_aux_shape.
  apply Z.div_pos; [|lia].
  apply Z.mul_nonneg_nonneg; [lia|]. apply Z.pow_nonneg; lia.
Qed.

(** A quotient that is not below [2^-1074] does not round to zero. *)
Lemma div_finite_big sx mx ex sy my ey :
  -1074 < Zpos (digits2_pos mx) + ex - (Zpos (digits2_pos my) + ey) ->
  let z := div (S754_finite sx mx ex) (S754_finite sy my ey) in
  z = S754_infinity (xorb sx sy) \/
  exists p e, z = S754_finite (xorb sx sy) p e /\
              Zpos (digits2_pos mx) + ex - (Zpos (digits2_pos my) + ey)
                <= Zpos (digits2_pos p) + e /\
              Zpos (digits2_pos p) <= 53 /\ -1074 <= e <= 971.
Proof.
  intros Hbig. cbv zeta. rewrite div_finite. cbv zeta.
  cbn [Zdigits2].
  set (d1 := Zpos (digits2_pos mx)) in *. set (d2 := Zpos (digits2_pos my)) in *.
  set (e' := Z.min (fexp prec emax (d1 + ex - (d2 + ey))) (ex - ey)).
  set (a := Z.pos mx * 2 ^ (ex - ey - e')).
  assert (He' : e' <= ex - ey /\ e' <= Z.max (d1 + ex - (d2 + ey) - 53) (-1074)).
  { unfold e'. rewrite fexp_eq. lia. }
  set (k := d1 + (ex - ey - e') - d2).
  assert (Hk : 1 <= k) by (unfold k; lia).
  assert (Hd1 : Zdigits2 a = d1 + (ex - ey - e')).
  { unfold a. rewrite Zdigits2_mul_pow2 by lia. reflexivity. }
  assert (Ha : 0 < a).
  { unfold a. pose proof (Z.pow_pos_nonneg 2 (ex - ey - e')). nia. }
  pose proof (Zdigits2_bounds a Ha) as [Hlo _]. rewrite Hd1 in Hlo.
  pose proof (Zdigits2_bounds (Zpos my) ltac:(lia)) as [_ Hhi].
  change (Zdigits2 (Zpos my)) with d2 in Hhi.
  assert (Hq : 2 ^ (k - 1) <= a / Zpos my).
  { apply Z.div_le_lower_bound; [lia|].
    assert (Z.pos my * 2 ^ (k - 1) <= 2 ^ d2 * 2 ^ (k - 1)).
    { apply Z.mul_le_mono_nonneg_r; [apply Z.pow_nonneg; lia|lia]. }
    rewrite <- Z.pow_add_r in H by (unfold d2; lia).
    replace (d2 + (k - 1)) with (d1 + (ex - ey - e') - 1) in H by (unfold k; lia).
    lia. }
  assert (Hq0 : 0 < a / Zpos my).
  { pose proof (Z.pow_pos_nonneg 2 (k - 1)). lia. }
  assert (Hdq : k <= Zdigits2 (a / Zpos my)).
  { rewrite <- (Zdigits2_unique (2 ^ (k - 1)) k) at 1.
    - apply Zdigits2_le. pose proof (Z.pow_pos_nonneg 2 (k - 1)). lia.
    - lia.
    - split; [lia|]. apply Z.pow_lt_mono_r; lia. }
  destruct (binary_round_aux_big (xorb sx sy) (a / Zpos my) e'
              (new_location (Zpos my) (a mod Zpos my)) Hq0)
    as [E|(p & e & E & Hm & Hr)].
  - unfold k in Hdq. lia.
  - left; exact E.
  - right. exists p, e. repeat split; try tauto. unfold k in Hdq. lia.
Qed.

(** A number divided by its own magnitude is one, of the sign of the
    operands. *)
Lemma div_self sx sy m e :
  div (S754_finite sx m e) (S754_finite sy m e) =
    S754_finite (xorb sx sy) 4503599627370496 (-52).
Proof.
  rewrite div_finite. cbv zeta.
  replace (Zdigits2 (Z.pos m) + e - (Zdigits2 (Z.pos m) + e)) with 0 by lia.
  rewrite Z.sub_diag.
  change (Z.min (fexp prec emax 0) 0) with (-53).
  change (0 - -53) with 53.
  rewrite (Z.mul_comm (Z.pos m)).
  rewrite Z.div_mul by lia. rewrite Z.mod_mul by lia.
  destruct (xorb sx sy); unfold new_location;
    destruct (Z.even (Z.pos m)); vm_compute; reflexivity.
Qed.

End OperationFacts.

(** * Facts about the dictionaries and the loops *)

Section DictFacts.

Context {V : Type}.

Lemma dict_get_set_same (d : dict V) k v : dict_get (dict_set d k v) k = Some v.
Proof.
  induction d as [|[k' v'] d IH]; simpl.
  - rewrite String.eqb_refl. reflexivity.
  - destruct (String.eqb k k') eqn:E; simpl; rewrite E; [reflexivity|exact IH].
Qed.

Lemma dict_get_set_other (d : dict V) k k' v :
  k' <> k -> dict_get (dict_set d k v) k' = dict_get d k'.
Proof.
  intros Hne. induction d as [|[k0 v0] d IH]; simpl.
  - destruct (String.eqb_spec k' k); [contradiction|reflexivity].
  - destruct (String.eqb_spec k k0) as [->|Hk]; simpl.
    + destruct (String.eqb_spec k' k0); [contradiction|reflexivity].
    + destruct (String.eqb_spec k' k0); [reflexivity|exact IH].
Qed.

Lemma dict_set_fresh (d : dict V) k v :
  ~ In k (keys d) -> dict_set d k v = d ++ [(k, v)].
Proof.
  induction d as [|[k' v'] d IH]; simpl; intros Hn.
  - reflexivity.
  - destruct (String.eqb_spec k k') as [->|Hk].
    + exfalso. apply Hn. left; reflexivity.
    + rewrite IH; [reflexivity|]. intros H. apply Hn. right; exact H.
Qed.

Lemma keys_app (d1 d2 : dict V) : keys (d1 ++ d2) = keys d1 ++ keys d2.
Proof. unfold keys. apply map_app. Qed.

Lemma dict_get_tabulate (f : string -> V) names k :
  In k names -> dict_get (map (fun n => (n, f n)) names) k = Some (f k).
Proof.
  induction names as [|a names IH]; simpl; intros H; [contradiction|].
  destruct (String.eqb_spec k a) as [->|Hk]; [reflexivity|].
  apply IH. destruct H; [congruence|assumption].
Qed.

Lemma dict_get_app_fresh (d1 d2 : dict V) k :
  ~ In k (keys d1) -> dict_get (d1 ++ d2) k = dict_get d2 k.
Proof.
  induction d1 as [|[k' v'] d1 IH]; simpl; intros Hn; [reflexivity|].
  destruct (String.eqb_spec k k') as [->|Hk].
  - exfalso. apply Hn. left; reflexivity.
  - apply IH. intros H. apply Hn. right; exact H.
Qed.

End DictFacts.

Lemma fill_selected_apps_other sel names : forall d k,
  ~ In k names -> dict_get (fill_selected_apps sel names d) k = dict_get d k.
Proof.
  induction names as [|a names IH]; simpl; intros d k Hn; [reflexivity|].
  rewrite IH by tauto. apply dict_get_set_other. intros ->. tauto.
Qed.

Lemma fill_selected_apps_get sel names : forall d k,
  In k names ->
  dict_get (fill_selected_apps sel names d) k = Some (selected (sel k)).
Proof.
  induction names as [|a names IH]; simpl; intros d k H; [contradiction|].
  destruct (in_dec string_dec k names) as [Hin|Hnin].
  - apply IH; assumption.
  - destruct H as [->|H]; [|contradiction].
    rewrite fill_selected_apps_other by assumption. apply dict_get_set_same.
Qed.

Lemma fill_app_savings_eq sel selected_apps names : forall d,
  (forall k, In k names -> dict_get selected_apps k = Some (selected (sel k))) ->
  NoDup names ->
  (forall k, In k names -> ~ In k (keys d)) ->
  fill_app_savings sel selected_apps names d =
    Ok (d ++ map (fun k => (k, effective_saving_percent (sel k))) names).
Proof.
  induction names as [|a names IH]; simpl; intros d Hsel Hnd Hfresh.
  - rewrite app_nil_r. reflexivity.
  - unfold dict_item. rewrite (Hsel a) by (left; reflexivity). simpl.
    inversion Hnd as [|? ? Ha Hnd']; subst.
    rewrite dict_set_fresh by (apply Hfresh; left; reflexivity).
    rewrite IH.
    + rewrite <- app_assoc. reflexivity.
    + intros k Hk. apply Hsel. right; exact Hk.
    + assumption.
    + intros k Hk. rewrite keys_app. intros Hin. apply in_app_or in Hin.
      destruct Hin as [Hin|Hin].
      * apply (Hfresh k); [right; exact Hk|exact Hin].
      * simpl in Hin. destruct Hin as [->|[]]. contradiction.
Qed.

Lemma saving_amount_eq bfc pct : saving_amount bfc pct = Ok (amount_of bfc pct).
Proof. reflexivity. Qed.

Lemma savings_loop_eq bfc app_savings (pct : string -> float) names : forall d acc,
  (forall k, In k names -> dict_get app_savings k = Some (pct k)) ->
  NoDup names ->
  (forall k, In k names -> ~ In k (keys d)) ->
  savings_loop bfc app_savings names d acc =
    Ok (d ++ map (fun k => (k, amount_of bfc (pct k))) names,
        fold_left F64.add (map (fun k => amount_of bfc (pct k)) names) acc).
Proof.
  induction names as [|a names IH]; intros d acc Hget Hnd Hfresh.
  - simpl. rewrite app_nil_r. reflexivity.
  - cbn [savings_loop]. unfold dict_item.
    rewrite (Hget a) by (left; reflexivity). cbn [bind].
    rewrite saving_amount_eq. cbn [bind].
    inversion Hnd as [|? ? Ha Hnd']; subst.
    rewrite dict_set_fresh by (apply Hfresh; left; reflexivity).
    rewrite IH.
    + cbn [map fold_left]. rewrite <- app_assoc. reflexivity.
    + intros k Hk. apply Hget. right; exact Hk.
    + assumption.
    + intros k Hk. rewrite keys_app. intros Hin. apply in_app_or in Hin.
      destruct Hin as [Hin|Hin].
      * apply (Hfresh k); [right; exact Hk|exact Hin].
      * simpl in Hin. destruct Hin as [->|[]]. contradiction.
Qed.

Lemma applications_NoDup : NoDup (keys applications).
Proof.
  unfold applications, keys; cbn [map fst].
  repeat (constructor; [cbn [In]; intuition discriminate|]).
  constructor.
Qed.

Lemma values_amounts_of sel bfc names :
  values (amounts_of sel bfc names) =
    map (fun k => amount_of bfc (effective_saving_percent (sel k))) names.
Proof. unfold values, amounts_of. rewrite map_map. reflexivity. Qed.

Lemma keys_amounts_of sel bfc names : keys (amounts_of sel bfc names) = names.
Proof.
  unfold keys, amounts_of. rewrite map_map. cbn [fst]. apply map_id.
Qed.

(** One run: the loops collapse to their closed forms. *)
Lemma compute_eq inp :
  compute inp =
    bfc <- baseline_fuel_cost (fleet_size inp) (daily_consumption inp)
             (operating_days inp) (fuel_price inp) ;;
    metrics_after_loop inp (license_cost_annual (fleet_size inp)) bfc
      (amounts_of (selections inp) bfc (keys applications))
      (Py.sum (values (amounts_of (selections inp) bfc (keys applications)))).
Proof.
  unfold compute. cbv zeta.
  pose proof applications_NoDup as Hnd. revert Hnd.
  generalize (keys applications). intros names Hnd.
  rewrite (fill_app_savings_eq (selections inp) _ names []).
  - cbn [bind app].
    destruct (baseline_fuel_cost (fleet_size inp) (daily_consumption inp)
                (operating_days inp) (fuel_price inp)) as [bfc|e]; [|reflexivity].
    cbn [bind].
    rewrite (savings_loop_eq bfc _
               (fun k => effective_saving_percent (selections inp k)) names []).
    + cbn [bind app]. rewrite values_amounts_of. reflexivity.
    + intros k Hk.
      apply (dict_get_tabulate (fun k => effective_saving_percent (selections inp k))).
      exact Hk.
    + exact Hnd.
    + intros k _ [].
  - intros k Hk. apply fill_selected_apps_get. exact Hk.
  - exact Hnd.
  - intros k _ [].
Qed.

Lemma bind_Ok_inv {A B : Type} (c : result A) (k : A -> result B) b :
  bind c k = Ok b -> exists a, c = Ok a /\ k a = Ok b.
Proof.
  destruct c as [a|e]; cbn [bind]; [|discriminate].
  intros H. exists a. split; [reflexivity|exact H].
Qed.

Lemma metrics_after_loop_Ok inp lca bfc amounts total r :
  metrics_after_loop inp lca bfc amounts total = Ok r ->
  licenseCostAnnual r = lca /\
  baselineFuelCost r = bfc /\
  perApplicationSavings r = amounts /\
  totalSavingsAnnual r = total /\
  payback_years lca total = Ok (paybackYears r) /\
  payback_months (paybackYears r) = Ok (paybackMonths r) /\
  roi_percent total lca = Ok (roiPercentAnnual r) /\
  fuel_saved amounts (fuel_price inp) = Ok (fuelSavedTons r) /\
  emissionsReducedTons r = emissions_reduced (fuelSavedTons r) /\
  (if view_3_years inp
   then exists t,
     three_year_view lca total (roiPercentAnnual r) (fuelSavedTons r)
       (emissionsReducedTons r) = Ok t /\
     threeYear r = Some t
   else threeYear r = None).
Proof.
  unfold metrics_after_loop. intros H.
  destruct (payback_years lca total) as [py|e] eqn:E1; [|discriminate].
  cbn [bind] in H.
  destruct (payback_months py) as [pm|e] eqn:E2; [|discriminate]. cbn [bind] in H.
  destruct (roi_percent total lca) as [roi|e] eqn:E3; [|discriminate].
  cbn [bind] in H.
  destruct (fuel_saved amounts (fuel_price inp)) as [fs|e] eqn:E4; [|discriminate].
  cbn [bind] in H.
  destruct (view_3_years inp).
  - destruct (three_year_view lca total roi fs (emissions_reduced fs))
      as [t|e] eqn:E5; [|discriminate].
    cbn [bind] in H. injection H as <-.
    cbn [licenseCostAnnual baselineFuelCost perApplicationSavings
         totalSavingsAnnual paybackYears paybackMonths roiPercentAnnual
         fuelSavedTons emissionsReducedTons threeYear].
    repeat (split; [first [reflexivity|assumption]|]).
    exists t. split; [assumption|reflexivity].
  - cbn [bind] in H. injection H as <-.
    cbn [licenseCostAnnual baselineFuelCost perApplicationSavings
         totalSavingsAnnual paybackYears paybackMonths roiPercentAnnual
         fuelSavedTons emissionsReducedTons threeYear].
    repeat (split; [first [reflexivity|assumption]|]). reflexivity.
Qed.

(** What a run that returns has computed. *)
Lemma compute_Ok_inv inp r :
  compute inp = Ok r ->
  exists bfc,
    baseline_fuel_cost (fleet_size inp) (daily_consumption inp)
      (operating_days inp) (fuel_price inp) = Ok bfc /\
    licenseCostAnnual r = license_cost_annual (fleet_size inp) /\
    baselineFuelCost r = bfc /\
    perApplicationSavings r = amounts_of (selections inp) bfc (keys applications) /\
    totalSavingsAnnual r = Py.sum (values (perApplicationSavings r)) /\
    payback_years (licenseCostAnnual r) (totalSavingsAnnual r) = Ok (paybackYears r) /\
    payback_months (paybackYears r) = Ok (paybackMonths r) /\
    roi_percent (totalSavingsAnnual r) (licenseCostAnnual r) = Ok (roiPercentAnnual r) /\
    fuel_saved (perApplicationSavings r) (fuel_price inp) = Ok (fuelSavedTons r) /\
    emissionsReducedTons r = emissions_reduced (fuelSavedTons r) /\
    (if view_3_years inp
     then exists t,
       three_year_view (licenseCostAnnual r) (totalSavingsAnnual r)
         (roiPercentAnnual r) (fuelSavedTons r) (emissionsReducedTons r) = Ok t /\
       threeYear r = Some t
     else threeYear r = None).
Proof.
  intros H. rewrite compute_eq in H.
  apply bind_Ok_inv in H. destruct H as (bfc & Hb & H).
  exists bfc. split; [exact Hb|].
  apply metrics_after_loop_Ok in H.
  destruct H as (H1 & H2 & H3 & H4 & H5 & H6 & H7 & H8 & H9 & H10).
  rewrite <- H4 in H5, H7, H10. rewrite <- H1 in H5, H7, H10.
  rewrite <- H3 in H4, H8.
  split; [exact H1|]. split; [exact H2|]. split; [exact H3|].
  split; [exact H4|]. split; [exact H5|]. split; [exact H6|].
  split; [exact H7|]. split; [exact H8|]. split; [exact H9|exact H10].
Qed.

Lemma float_mul_int_const x n a :
  float_of_int n = Ok a -> float_mul_int x n = Ok (F64.mul x a).
Proof. unfold float_mul_int. intros ->. reflexivity. Qed.

Lemma mul_comm x y : F64.mul x y = F64.mul y x.
Proof.
  unfold F64.mul.
  destruct x as [sx|sx| |sx mx ex], y as [sy|sy| |sy my ey]; simpl;
    try rewrite (xorb_comm sx sy); try reflexivity.
  rewrite (Pos.mul_comm mx my), (Z.add_comm ex ey). reflexivity.
Qed.

(** * The claims *)

(** C1: on the scenario of the specification (10 vessels, 550 USD per ton,
    50 tons a day, 330 days, only Hull Maintainance selected, at 3.0) the
    run returns licence cost 36000, baseline 90750000, the whole saving
    2722500 on Hull Maintainance, payback months 36000/2722500*12, ROI
    (2722500-36000)/36000*100, 4950 tons of fuel and 4950*3.114 = 15414.3
    tons of CO2, all as binary64 values. *)
Theorem C1_scenario_metrics :
  exists r,
    compute scenario = Ok r /\
    licenseCostAnnual r = 36000 /\
    baselineFuelCost r = F64.of_Z 90750000 /\
    perApplicationSavings r =
      [("Hull Maintainance App"%string, F64.of_Z 2722500);
       ("Voyage Optimization App"%string, F64.pos_zero);
       ("Emission App"%string, F64.pos_zero);
       ("Performance App"%string, F64.pos_zero);
       ("Propulsion Pro"%string, F64.pos_zero);
       ("Bunker management"%string, F64.pos_zero)] /\
    totalSavingsAnnual r = F64.of_Z 2722500 /\
    paybackMonths r =
      F64.mul (F64.div (F64.of_Z 36000) (F64.of_Z 2722500)) (F64.of_Z 12) /\
    roiPercentAnnual r =
      F64.mul (F64.div (F64.sub (F64.of_Z 2722500) (F64.of_Z 36000))
                       (F64.of_Z 36000)) (F64.of_Z 100) /\
    roiPercentAnnual r = F64.dec 74625 1 /\
    fuelSavedTons r = F64.of_Z 4950 /\
    emissionsReducedTons r = F64.mul (F64.of_Z 4950) (F64.dec 3114 3) /\
    emissionsReducedTons r = F64.dec 154143 1.
Proof.
  eexists. split; [vm_compute; reflexivity|].
  cbn [licenseCostAnnual baselineFuelCost perApplicationSavings
       totalSavingsAnnual paybackMonths roiPercentAnnual fuelSavedTons
       emissionsReducedTons].
  repeat split; vm_compute; reflexivity.
Qed.

Lemma fuel_saved_Ok amounts price fs :
  fuel_saved amounts price = Ok fs ->
  F64.is_zero price = false /\ fs = F64.div (Py.sum (values amounts)) price.
Proof.
  unfold fuel_saved, float_truediv.
  destruct (F64.is_zero price); [discriminate|].
  intros H. injection H as <-. split; reflexivity.
Qed.

(** The run on either [sum]: the loops collapse as in [compute_eq]. *)
Lemma compute_on_eq alg inp :
  compute_on alg inp =
    bfc <- baseline_fuel_cost (fleet_size inp) (daily_consumption inp)
             (operating_days inp) (fuel_price inp) ;;
    metrics_after_loop_on alg inp (license_cost_annual (fleet_size inp)) bfc
      (amounts_of (selections inp) bfc (keys applications))
      (Py.sum (values (amounts_of (selections inp) bfc (keys applications)))).
Proof.
  unfold compute_on. cbv zeta.
  pose proof applications_NoDup as Hnd. revert Hnd.
  generalize (keys applications). intros names Hnd.
  rewrite (fill_app_savings_eq (selections inp) _ names []).
  - cbn [bind app].
    destruct (baseline_fuel_cost (fleet_size inp) (daily_consumption inp)
                (operating_days inp) (fuel_price inp)) as [bfc|e]; [|reflexivity].
    cbn [bind].
    rewrite (savings_loop_eq bfc _
               (fun k => effective_saving_percent (selections inp k)) names []).
    + cbn [bind app]. rewrite values_amounts_of. reflexivity.
    + intros k Hk.
      apply (dict_get_tabulate (fun k => effective_saving_percent (selections inp k))).
      exact Hk.
    + exact Hnd.
    + intros k _ [].
  - intros k Hk. apply fill_selected_apps_get. exact Hk.
  - exact Hnd.
  - intros k _ [].
Qed.

(** With the [sum] that adds from left to right, the run is [compute]. *)
Lemma compute_on_left_to_right inp : compute_on LeftToRight inp = compute inp.
Proof. reflexivity. Qed.

Lemma metrics_after_loop_on_Ok alg inp lca bfc amounts total r :
  metrics_after_loop_on alg inp lca bfc amounts total = Ok r ->
  perApplicationSavings r = amounts /\
  totalSavingsAnnual r = total /\
  fuel_saved_on alg amounts (fuel_price inp) = Ok (fuelSavedTons r) /\
  emissionsReducedTons r = emissions_reduced (fuelSavedTons r).
Proof.
  unfold metrics_after_loop_on. intros H.
  destruct (payback_years lca total) as [py|e]; [|discriminate].
  cbn [bind] in H.
  destruct (payback_months py) as [pm|e]; [|discriminate]. cbn [bind] in H.
  destruct (roi_percent total lca) as [roi|e]; [|discriminate].
  cbn [bind] in H.
  destruct (fuel_saved_on alg amounts (fuel_price inp)) as [fs|e]; [|discriminate].
  cbn [bind] in H.
  destruct (if view_3_years inp
            then t <- three_year_view lca total roi fs (emissions_reduced fs) ;;
                 Ok (Some t)
            else Ok None) as [t3|e]; [|discriminate].
  cbn [bind] in H. injection H as <-.
  cbn [perApplicationSavings totalSavingsAnnual fuelSavedTons emissionsReducedTons].
  repeat split.
Qed.

(** C7, amended: on either interpreter the CO2 reduction is the product of
    the fuel saved and 3.114, and the fuel saved is the quotient of
    [sum(app_saving_amounts.values())] and the fuel price.  The total
    saving is the sum of the same entries added from left to right, so the
    fuel saved is the quotient of the total saving and the fuel price when
    [sum] adds from left to right. *)
Theorem C7_emissions_from_fuel_saved alg inp r :
  compute_on alg inp = Ok r ->
  emissionsReducedTons r = F64.mul (fuelSavedTons r) (F64.dec 3114 3) /\
  fuelSavedTons r =
    F64.div (sum_on alg (values (perApplicationSavings r))) (fuel_price inp) /\
  totalSavingsAnnual r = sum_on LeftToRight (values (perApplicationSavings r)) /\
  (alg = LeftToRight -> emissions_from_total inp r).
Proof.
  intros H. rewrite compute_on_eq in H.
  apply bind_Ok_inv in H. destruct H as (bfc & _ & H).
  apply metrics_after_loop_on_Ok in H. destruct H as (Ha & Ht & Hfs & Her).
  unfold fuel_saved_on, float_truediv in Hfs.
  destruct (F64.is_zero (fuel_price inp)); [discriminate|].
  injection Hfs as Hfs.
  assert (Hsum : totalSavingsAnnual r =
                 sum_on LeftToRight (values (perApplicationSavings r))).
  { rewrite Ht, Ha. reflexivity. }
  split; [exact Her|]. split; [rewrite Ha; symmetry; exact Hfs|].
  split; [exact Hsum|].
  intros ->. split; [exact Her|].
  rewrite Hsum, Ha. symmetry. exact Hfs.
Qed.

Lemma C7_witness :
  exists r, compute_on Compensated scenario_three_selected = Ok r /\
    emissionsReducedTons r = F64.mul (fuelSavedTons r) (F64.dec 3114 3) /\
    fuelSavedTons r =
      F64.div (sum_on Compensated (values (perApplicationSavings r)))
              (fuel_price scenario_three_selected).
Proof.
  assert (H : exists r, compute_on Compensated scenario_three_selected = Ok r).
  { eexists. vm_compute. reflexivity. }
  destruct H as [r Hr]. exists r. split; [exact Hr|].
  destruct (C7_emissions_from_fuel_saved Compensated scenario_three_selected r Hr)
    as (He & Hf & _).
  split; [exact He|exact Hf].
Defined.

(** C7 as stated fails where [sum] compensates the rounding errors of its
    additions: with savings of 8.96, 1.76 and 1.12 percent on the default
    fleet, [sum] of the three amounts and their running total differ in the
    last bit, and so do their quotients by the fuel price. *)
Lemma C7_counterexample :
  exists r, compute_on Compensated scenario_three_selected = Ok r /\
            ~ emissions_from_total scenario_three_selected r.
Proof.
  eexists. split; [vm_compute; reflexivity|].
  intros [_ H]. vm_compute in H. discriminate.
Qed.

Lemma float_mul_int_2 x : float_mul_int x 2 = Ok (F64.mul x (F64.of_Z 2)).
Proof. reflexivity. Qed.

Lemma float_mul_int_3 x : float_mul_int x 3 = Ok (F64.mul x (F64.of_Z 3)).
Proof. reflexivity. Qed.

Lemma float_mul_int_12 x : float_mul_int x 12 = Ok (F64.mul x (F64.of_Z 12)).
Proof. reflexivity. Qed.

Lemma float_mul_int_100 x : float_mul_int x 100 = Ok (F64.mul x (F64.of_Z 100)).
Proof. reflexivity. Qed.

Lemma three_year_view_Ok lca total roi fs er t :
  three_year_view lca total roi fs er = Ok t ->
  license_cost_total t = lca * 3 /\
  total_savings_3yr t = F64.mul total (F64.of_Z 3) /\
  roi_percent (F64.mul total (F64.of_Z 3)) (lca * 3) = Ok (roi_percent_3yr t) /\
  fuel_saved_3yr t = F64.mul fs (F64.of_Z 3) /\
  emissions_reduced_3yr t = F64.mul er (F64.of_Z 3) /\
  exists roi_2, roi_year_2 total lca = Ok roi_2 /\
    yearly_roi t = [roi; roi_2; roi_percent_3yr t].
Proof.
  unfold three_year_view. rewrite !float_mul_int_3, !float_mul_int_2.
  cbn [bind].
  destruct (roi_percent _ _) as [roi3|e] eqn:E3; [|discriminate]. cbn [bind].
  destruct (roi_year_2 _ _) as [roi2|e] eqn:E2; [|discriminate]. cbn [bind].
  intros H. injection H as <-.
  cbn [license_cost_total total_savings_3yr roi_percent_3yr fuel_saved_3yr
       emissions_reduced_3yr yearly_roi].
  repeat (split; [first [reflexivity|assumption]|]).
  exists roi2. split; reflexivity.
Qed.

(** C6: with the three-year view, the licence cost, the total saving, the
    fuel saved and the CO2 reduction over three years are three times the
    values of one year. *)
Theorem C6_three_year_totals inp r :
  compute inp = Ok r ->
  view_3_years inp = true ->
  exists t,
    threeYear r = Some t /\
    license_cost_total t = 3 * licenseCostAnnual r /\
    total_savings_3yr t = F64.mul (F64.of_Z 3) (totalSavingsAnnual r) /\
    fuel_saved_3yr t = F64.mul (F64.of_Z 3) (fuelSavedTons r) /\
    emissions_reduced_3yr t = F64.mul (F64.of_Z 3) (emissionsReducedTons r).
Proof.
  intros H Hv. apply compute_Ok_inv in H.
  destruct H as (bfc & _ & _ & _ & _ & _ & _ & _ & _ & _ & _ & H3).
  rewrite Hv in H3. destruct H3 as (t & Ht & Hr).
  exists t. split; [exact Hr|].
  apply three_year_view_Ok in Ht.
  destruct Ht as (H1 & H2 & _ & H4 & H5 & _).
  rewrite H1, H2, H4, H5.
  rewrite !(mul_comm (F64.of_Z 3)).
  repeat split; try reflexivity. lia.
Qed.

Lemma C6_witness :
  exists r t,
    compute scenario_above_max = Ok r /\
    threeYear r = Some t /\
    license_cost_total t = 3 * licenseCostAnnual r /\
    total_savings_3yr t = F64.mul (F64.of_Z 3) (totalSavingsAnnual r) /\
    fuel_saved_3yr t = F64.mul (F64.of_Z 3) (fuelSavedTons r) /\
    emissions_reduced_3yr t = F64.mul (F64.of_Z 3) (emissionsReducedTons r).
Proof.
  assert (H : exists r, compute scenario_above_max = Ok r).
  { eexists. vm_compute. reflexivity. }
  destruct H as [r Hr].
  destruct (C6_three_year_totals scenario_above_max r Hr eq_refl) as (t & Ht).
  exists r, t. split; [exact Hr|exact Ht].
Defined.

(** C8: a selected application is credited the baseline times its
    savingPercent over 100, whatever the percentage is: nothing brings it
    back into the range of the catalog. *)
Theorem C8_no_clamping inp r k :
  compute inp = Ok r ->
  In k (keys applications) ->
  selected (selections inp k) = true ->
  dict_get (perApplicationSavings r) k =
    Some (F64.div (F64.mul (baselineFuelCost r) (savingPercent (selections inp k)))
                  (F64.of_Z 100)).
Proof.
  intros H Hk Hs. apply compute_Ok_inv in H.
  destruct H as (bfc & _ & _ & Hb & Ha & _).
  rewrite Ha, Hb. unfold amounts_of.
  rewrite (dict_get_tabulate
             (fun k => amount_of bfc (effective_saving_percent (selections inp k))))
    by exact Hk.
  unfold effective_saving_percent. rewrite Hs. reflexivity.
Qed.

Lemma C8_witness :
  exists r,
    compute scenario_above_max = Ok r /\
    dict_get (perApplicationSavings r) "Hull Maintainance App" =
      Some (F64.div (F64.mul (baselineFuelCost r) (F64.dec 200 1)) (F64.of_Z 100)).
Proof.
  assert (H : exists r, compute scenario_above_max = Ok r).
  { eexists. vm_compute. reflexivity. }
  destruct H as [r Hr]. exists r. split; [exact Hr|].
  apply (C8_no_clamping scenario_above_max r "Hull Maintainance App" Hr).
  - left; reflexivity.
  - reflexivity.
Defined.



(** ** Which steps can raise [ZeroDivisionError] *)

Lemma float_of_int_Raise n e : float_of_int n = Raise e -> e = OverflowError.
Proof.
  unfold float_of_int. destruct (F64.is_inf (F64.of_Z n)); [|discriminate].
  intros H; injection H as <-; reflexivity.
Qed.

Lemma float_of_int_nonzero n a :
  n <> 0 -> float_of_int n = Ok a -> F64.is_zero a = false.
Proof.
  intros Hn H. apply float_of_int_Ok in H.
  destruct H as [_ [[H0 _]|[_ (p & e & -> & _)]]]; [contradiction|reflexivity].
Qed.

Lemma float_mul_int_no_zero_division x n :
  float_mul_int x n <> Raise ZeroDivisionError.
Proof.
  unfold float_mul_int. destruct (float_of_int n) as [a|e] eqn:E; cbn [bind].
  - discriminate.
  - apply float_of_int_Raise in E. subst e. discriminate.
Qed.

Lemma float_sub_int_no_zero_division x n :
  float_sub_int x n <> Raise ZeroDivisionError.
Proof.
  unfold float_sub_int. destruct (float_of_int n) as [a|e] eqn:E; cbn [bind].
  - discriminate.
  - apply float_of_int_Raise in E. subst e. discriminate.
Qed.

Lemma float_div_int_no_zero_division x n :
  n <> 0 -> float_div_int x n <> Raise ZeroDivisionError.
Proof.
  intros Hn. unfold float_div_int.
  destruct (float_of_int n) as [a|e] eqn:E; cbn [bind].
  - unfold float_truediv. rewrite (float_of_int_nonzero n a Hn E). discriminate.
  - apply float_of_int_Raise in E. subst e. discriminate.
Qed.

Lemma baseline_fuel_cost_no_zero_division f d o p :
  baseline_fuel_cost f d o p <> Raise ZeroDivisionError.
Proof.
  unfold baseline_fuel_cost, int_mul_float.
  destruct (float_of_int f) as [a|e] eqn:E; cbn [bind].
  - destruct (float_mul_int (F64.mul a d) o) as [b|e] eqn:E2; cbn [bind].
    + discriminate.
    + intros H; injection H as ->. exact (float_mul_int_no_zero_division _ _ E2).
  - apply float_of_int_Raise in E. subst e. discriminate.
Qed.

Lemma payback_years_no_zero_division lca total :
  payback_years lca total <> Raise ZeroDivisionError.
Proof.
  unfold payback_years, float_bool, int_div_float.
  destruct (F64.is_zero total) eqn:Ez; cbn [negb]; [discriminate|].
  destruct (float_of_int lca) as [a|e] eqn:E; cbn [bind].
  - unfold float_truediv. rewrite Ez. discriminate.
  - apply float_of_int_Raise in E. subst e. discriminate.
Qed.

Lemma payback_months_returns py : exists pm, payback_months py = Ok pm.
Proof.
  unfold payback_months. destruct (float_bool py).
  - rewrite float_mul_int_12. eexists; reflexivity.
  - eexists; reflexivity.
Qed.

Lemma roi_percent_no_zero_division total lc :
  roi_percent total lc <> Raise ZeroDivisionError.
Proof.
  unfold roi_percent, int_bool.
  destruct (Z.eqb_spec lc 0) as [->|Hn]; cbn [negb]; [discriminate|].
  destruct (float_sub_int total lc) as [d|e] eqn:E1; cbn [bind].
  - destruct (float_div_int d lc) as [q|e] eqn:E2; cbn [bind].
    + rewrite float_mul_int_100. discriminate.
    + intros H; injection H as ->. exact (float_div_int_no_zero_division _ _ Hn E2).
  - intros H; injection H as ->. exact (float_sub_int_no_zero_division _ _ E1).
Qed.

Lemma roi_year_2_no_zero_division total lca :
  lca <> 0 -> roi_year_2 total lca <> Raise ZeroDivisionError.
Proof.
  intros Hn. unfold roi_year_2. rewrite float_mul_int_2. cbn [bind].
  destruct (float_sub_int _ (lca * 2)) as [d|e] eqn:E1; cbn [bind].
  - destruct (float_div_int d (lca * 2)) as [q|e] eqn:E2; cbn [bind].
    + rewrite float_mul_int_100. discriminate.
    + intros H; injection H as ->.
      apply (float_div_int_no_zero_division d (lca * 2)); [lia|exact E2].
  - intros H; injection H as ->. exact (float_sub_int_no_zero_division _ _ E1).
Qed.

Lemma roi_year_2_zero total : roi_year_2 total 0 = Raise ZeroDivisionError.
Proof. reflexivity. Qed.

Lemma three_year_view_zero total roi fs er :
  three_year_view 0 total roi fs er = Raise ZeroDivisionError.
Proof. reflexivity. Qed.

Lemma three_year_view_no_zero_division lca total roi fs er :
  lca <> 0 -> three_year_view lca total roi fs er <> Raise ZeroDivisionError.
Proof.
  intros Hn. unfold three_year_view.
  rewrite !float_mul_int_3, !float_mul_int_2. cbn [bind].
  destruct (roi_percent _ _) as [roi3|e] eqn:E3; cbn [bind].
  - destruct (roi_year_2 total lca) as [roi2|e] eqn:E2; cbn [bind].
    + discriminate.
    + intros H; injection H as ->. exact (roi_year_2_no_zero_division _ _ Hn E2).
  - intros H; injection H as ->. exact (roi_percent_no_zero_division _ _ E3).
Qed.

(** The run divides by zero only at line 216, by a zero fuel price, and at
    line 230, by the licence cost of an empty fleet. *)
Lemma compute_zero_division inp :
  compute inp = Raise ZeroDivisionError ->
  F64.is_zero (fuel_price inp) = true \/
  (view_3_years inp = true /\ fleet_size inp = 0).
Proof.
  rewrite compute_eq.
  destruct (baseline_fuel_cost _ _ _ _) as [bfc|e] eqn:Eb; cbn [bind].
  2:{ intros H; injection H as ->.
      exfalso. exact (baseline_fuel_cost_no_zero_division _ _ _ _ Eb). }
  unfold metrics_after_loop.
  destruct (payback_years _ _) as [py|e] eqn:E1; cbn [bind].
  2:{ intros H; injection H as ->.
      exfalso. exact (payback_years_no_zero_division _ _ E1). }
  destruct (payback_months_returns py) as [pm ->]. cbn [bind].
  destruct (roi_percent _ _) as [roi|e] eqn:E3; cbn [bind].
  2:{ intros H; injection H as ->.
      exfalso. exact (roi_percent_no_zero_division _ _ E3). }
  unfold fuel_saved, float_truediv.
  destruct (F64.is_zero (fuel_price inp)) eqn:Ep; cbn [bind]; [left; reflexivity|].
  destruct (view_3_years inp); cbn [bind]; [|discriminate].
  destruct (three_year_view _ _ _ _ _) as [t|e] eqn:E5; cbn [bind]; [discriminate|].
  intros H. injection H as ->. right. split; [reflexivity|].
  destruct (Z.eq_dec (fleet_size inp) 0) as [E0|Hn]; [exact E0|].
  exfalso. apply (three_year_view_no_zero_division _ _ _ _ _) in E5; [exact E5|].
  unfold license_cost_annual, LICENSE_COST_PER_VESSEL_PER_MONTH. lia.
Qed.

Lemma compute_no_vessel_three_year inp :
  view_3_years inp = true ->
  fleet_size inp = 0 ->
  (exists d, float_of_int (operating_days inp) = Ok d) ->
  compute inp = Raise ZeroDivisionError.
Proof.
  intros Hv Hf [d Hd]. rewrite compute_eq.
  unfold baseline_fuel_cost, int_mul_float, float_mul_int.
  rewrite Hf, Hd. cbn [bind].
  change (float_of_int 0) with (Ok (S754_zero false)). cbn [bind].
  unfold metrics_after_loop.
  change (license_cost_annual 0) with 0.
  destruct (payback_years _ _) as [py|e] eqn:E1.
  2:{ exfalso. revert E1. unfold payback_years, float_bool, int_div_float.
      change (float_of_int 0) with (Ok (S754_zero false)). cbn [bind].
      unfold float_truediv. destruct (F64.is_zero _); cbn [negb]; discriminate. }
  cbn [bind]. destruct (payback_months_returns py) as [pm ->]. cbn [bind].
  change (roi_percent ?t 0) with (Ok F64.nan). cbn [bind].
  destruct (fuel_saved _ _) as [fs|e] eqn:E4; cbn [bind].
  - rewrite Hv. rewrite three_year_view_zero. reflexivity.
  - revert E4. unfold fuel_saved, float_truediv.
    destruct (F64.is_zero (fuel_price inp)); [|discriminate].
    intros H; injection H as <-. reflexivity.
Qed.

(** C10: with a licence cost of zero the entry of year 2 of the yearly ROI
    divides by zero and raises, where the ROI of one year and of three
    years are NaN, so that the three-year view of an empty fleet raises;
    a fleet of one vessel or more never reaches that division by zero. *)
Theorem C10_year_2_roi_division :
  (forall total,
     roi_year_2 total 0 = Raise ZeroDivisionError /\
     roi_percent total 0 = Ok F64.nan /\
     roi_percent (F64.mul total (F64.of_Z 3)) (0 * 3) = Ok F64.nan) /\
  (forall inp,
     view_3_years inp = true ->
     fleet_size inp = 0 ->
     (exists d, float_of_int (operating_days inp) = Ok d) ->
     compute inp = Raise ZeroDivisionError) /\
  (forall total fleet,
     1 <= fleet ->
     license_cost_annual fleet <> 0 /\
     roi_year_2 total (license_cost_annual fleet) <> Raise ZeroDivisionError) /\
  (forall inp,
     1 <= fleet_size inp ->
     compute inp = Raise ZeroDivisionError ->
     F64.is_zero (fuel_price inp) = true).
Proof.
  split; [|split; [|split]].
  - intros total. repeat split; reflexivity.
  - exact compute_no_vessel_three_year.
  - intros total fleet Hf.
    assert (Hn : license_cost_annual fleet <> 0).
    { unfold license_cost_annual, LICENSE_COST_PER_VESSEL_PER_MONTH. lia. }
    split; [exact Hn|]. apply roi_year_2_no_zero_division. exact Hn.
  - intros inp Hf H. apply compute_zero_division in H.
    destruct H as [H|[_ H]]; [exact H|lia].
Qed.

Lemma C10_witness :
  compute scenario_no_vessel = Raise ZeroDivisionError /\
  roi_year_2 (F64.of_Z 2722500) (license_cost_annual 10) <> Raise ZeroDivisionError.
Proof.
  split.
  - apply (proj1 (proj2 C10_year_2_roi_division) scenario_no_vessel).
    + reflexivity.
    + reflexivity.
    + eexists. vm_compute. reflexivity.
  - apply (proj1 (proj2 (proj2 C10_year_2_roi_division)) (F64.of_Z 2722500) 10).
    lia.
Defined.

(** * Ranges, zeros and NaN through the operations *)

Section RangeFacts.

Import F64.

Lemma mul_in_range x y : in_range (mul x y).
Proof.
  destruct x as [sx|sx| |sx mx ex], y as [sy|sy| |sy my ey]; try exact I.
  unfold mul, SFmul.
  destruct (binary_round_aux_shape (xorb sx sy) (Zpos (mx * my)) (ex + ey) loc_Exact)
    as [E|[E|(p & e & E & Hr)]]; try lia; rewrite E; simpl; tauto.
Qed.

Lemma div_in_range x y : in_range (div x y).
Proof.
  destruct x as [sx|sx| |sx mx ex], y as [sy|sy| |sy my ey]; try exact I.
  destruct (div_finite_shape sx mx ex sy my ey) as [E|[E|(p & e & E & Hr)]];
    rewrite E; simpl; tauto.
Qed.

Lemma binary_normalize_in_range z e : in_range (binary_normalize prec emax z e false).
Proof.
  destruct z as [|q|q]; simpl; [exact I| |].
  - destruct (binary_round_shape false q e) as [E|[E|(p & e2 & E & Hr)]];
      rewrite E; simpl; tauto.
  - destruct (binary_round_shape true q e) as [E|[E|(p & e2 & E & Hr)]];
      rewrite E; simpl; tauto.
Qed.

Lemma add_in_range x y : in_range x -> in_range y -> in_range (add x y).
Proof.
  intros Hx Hy.
  destruct x as [sx|sx| |sx mx ex], y as [sy|sy| |sy my ey];
    try exact I; try exact Hx; try exact Hy.
  - destruct sx, sy; exact I.
  - destruct sx, sy; exact I.
  - apply binary_normalize_in_range.
Qed.

Lemma of_Z_in_range n : in_range (of_Z n).
Proof. apply binary_normalize_in_range. Qed.

(** A nonzero integer mantissa at a format exponent does not round to zero. *)
Lemma binary_normalize_nonzero z e :
  z <> 0 -> -1074 <= e ->
  is_zero (binary_normalize prec emax z e false) = false /\
  is_nan (binary_normalize prec emax z e false) = false.
Proof.
  intros Hz He. destruct z as [|q|q]; [contradiction| |]; cbn [binary_normalize].
  - destruct (binary_round_big false q e) as [E|(p & e2 & E & _)];
      [lia|rewrite E; split; reflexivity..].
  - destruct (binary_round_big true q e) as [E|(p & e2 & E & _)];
      [lia|rewrite E; split; reflexivity..].
Qed.

Lemma add_zero_r x y :
  x <> S754_zero true -> is_zero y = true -> add x y = x.
Proof.
  intros Hx Hy. destruct y as [sy| | |]; try discriminate.
  destruct x as [sx|sx| |sx mx ex]; try reflexivity.
  destruct sx; [contradiction|]. destruct sy; reflexivity.
Qed.

Lemma add_not_neg_zero x y :
  x <> S754_zero true -> in_range x -> in_range y -> add x y <> S754_zero true.
Proof.
  intros Hx Rx Ry.
  destruct x as [sx|sx| |sx mx ex], y as [sy|sy| |sy my ey];
    try (simpl; discriminate); try exact Hx.
  - destruct sx; [contradiction|]. destruct sy; simpl; discriminate.
  - destruct sx, sy; simpl; discriminate.
  - unfold add, SFadd.
    set (z := cond_Zopp sx _ + cond_Zopp sy _).
    destruct (Z.eq_dec z 0) as [E|Hn].
    + rewrite E. simpl. discriminate.
    + simpl in Rx, Ry.
      destruct (binary_normalize_nonzero z (Z.min ex ey) Hn ltac:(lia)) as [H _].
      intros E. rewrite E in H. discriminate.
Qed.

Lemma add_is_nan_finite x y :
  is_finite x = true -> is_finite y = true -> is_nan (add x y) = false.
Proof.
  intros Hx Hy.
  destruct x as [sx|sx| |sx mx ex], y as [sy|sy| |sy my ey];
    try discriminate; try reflexivity.
  - destruct sx, sy; reflexivity.
  - unfold add, SFadd.
    set (z := cond_Zopp sx _ + cond_Zopp sy _). clearbody z.
    destruct z as [|q|q]; cbn [binary_normalize]; [reflexivity| |].
    + destruct (binary_round_shape false q (Z.min ex ey)) as [E|[E|(p & e2 & E & Hr)]];
        rewrite E; reflexivity.
    + destruct (binary_round_shape true q (Z.min ex ey)) as [E|[E|(p & e2 & E & Hr)]];
        rewrite E; reflexivity.
Qed.

(** The product with a zero is a zero, unless the other factor is not finite. *)
Lemma mul_zero_r x y :
  is_finite x = true -> is_zero y = true -> is_zero (mul x y) = true.
Proof.
  destruct x as [sx|sx| |sx mx ex], y as [sy|sy| |sy my ey];
    try discriminate; reflexivity.
Qed.

Lemma mul_zero_l x y :
  is_zero x = true -> is_finite y = true -> is_zero (mul x y) = true.
Proof.
  destruct x as [sx|sx| |sx mx ex], y as [sy|sy| |sy my ey];
    try discriminate; reflexivity.
Qed.

Lemma div_zero_by_finite x sy my ey :
  is_zero x = true -> is_zero (div x (S754_finite sy my ey)) = true.
Proof. destruct x; try discriminate; reflexivity. Qed.

Lemma of_Z_100 : of_Z 100 = S754_finite false 7036874417766400 (-46).
Proof. reflexivity. Qed.

End RangeFacts.

Lemma amount_of_in_range bfc pct : F64.in_range (amount_of bfc pct).
Proof. apply div_in_range. Qed.

Lemma amount_of_zero bfc pct :
  F64.is_finite bfc = true -> F64.is_zero pct = true ->
  F64.is_zero (amount_of bfc pct) = true.
Proof.
  intros Hb Hp. unfold amount_of. rewrite of_Z_100.
  apply div_zero_by_finite. apply mul_zero_r; assumption.
Qed.

(** The running total is never [-0.0], and adding zeros leaves it as it is. *)
Lemma fold_add_invariant xs : forall acc,
  acc <> S754_zero true -> F64.in_range acc ->
  (forall x, In x xs -> F64.in_range x) ->
  fold_left F64.add xs acc <> S754_zero true /\
  F64.in_range (fold_left F64.add xs acc).
Proof.
  induction xs as [|x xs IH]; intros acc Hacc Racc Hxs; cbn [fold_left].
  - split; assumption.
  - apply IH.
    + apply add_not_neg_zero; [assumption..|]. apply Hxs. left; reflexivity.
    + apply add_in_range; [assumption|]. apply Hxs. left; reflexivity.
    + intros y Hy. apply Hxs. right; exact Hy.
Qed.

Lemma fold_add_skip_zeros {A : Type} (f : A -> float) (keep : A -> bool) xs :
  forall acc,
  acc <> S754_zero true -> F64.in_range acc ->
  (forall x, In x xs -> F64.in_range (f x)) ->
  (forall x, In x xs -> keep x = false -> F64.is_zero (f x) = true) ->
  fold_left F64.add (map f xs) acc =
    fold_left F64.add (map f (filter keep xs)) acc.
Proof.
  induction xs as [|x xs IH]; intros acc Hacc Racc Hr Hz; [reflexivity|].
  cbn [map filter fold_left].
  destruct (keep x) eqn:Ek.
  - cbn [map fold_left]. apply IH.
    + apply add_not_neg_zero; [assumption..|]. apply Hr. left; reflexivity.
    + apply add_in_range; [assumption|]. apply Hr. left; reflexivity.
    + intros y Hy. apply Hr. right; exact Hy.
    + intros y Hy. apply Hz. right; exact Hy.
  - rewrite add_zero_r; [|assumption|apply Hz; [left; reflexivity|exact Ek]].
    apply IH; try assumption.
    + intros y Hy. apply Hr. right; exact Hy.
    + intros y Hy. apply Hz. right; exact Hy.
Qed.

Lemma selected_entries_amounts_of inp bfc names :
  values (selected_entries inp (amounts_of (selections inp) bfc names)) =
    map (fun k => amount_of bfc (effective_saving_percent (selections inp k)))
        (filter (fun k => selected (selections inp k)) names).
Proof.
  unfold selected_entries, amounts_of, values.
  induction names as [|k names IH]; [reflexivity|].
  cbn [map filter fst]. destruct (selected (selections inp k)); cbn [map snd];
    rewrite IH; reflexivity.
Qed.

Lemma total_of_selected inp bfc names :
  F64.is_finite bfc = true ->
  Py.sum (values (amounts_of (selections inp) bfc names)) =
    Py.sum (values (selected_entries inp (amounts_of (selections inp) bfc names))).
Proof.
  intros Hb. rewrite selected_entries_amounts_of, values_amounts_of.
  unfold Py.sum.
  apply (fold_add_skip_zeros
           (fun k => amount_of bfc (effective_saving_percent (selections inp k)))
           (fun k => selected (selections inp k))).
  - discriminate.
  - exact I.
  - intros k _. apply amount_of_in_range.
  - intros k _ Hk. apply amount_of_zero; [exact Hb|].
    unfold effective_saving_percent. rewrite Hk. reflexivity.
Qed.

(** C4, as the code has it: when the baseline fuel cost is finite, an
    unselected application has a zero entry in the savings, whatever
    percentage its selection carries, and the total is the sum of the
    entries of the selected applications alone. *)
Theorem C4_unselected_contribute_nothing inp r :
  compute inp = Ok r ->
  F64.is_finite (baselineFuelCost r) = true ->
  unselected_contribute_nothing inp r.
Proof.
  intros H Hfin. apply compute_Ok_inv in H.
  destruct H as (bfc & _ & _ & Hb & Ha & Ht & _).
  rewrite Hb in Hfin. unfold unselected_contribute_nothing.
  rewrite Ht, Ha. split.
  - intros k Hk Hs.
    exists (amount_of bfc (effective_saving_percent (selections inp k))). split.
    + unfold amounts_of.
      apply (dict_get_tabulate
               (fun k => amount_of bfc (effective_saving_percent (selections inp k)))).
      exact Hk.
    + apply amount_of_zero; [exact Hfin|].
      unfold effective_saving_percent. rewrite Hs. reflexivity.
  - apply total_of_selected. exact Hfin.
Qed.

Lemma C4_witness :
  exists r, compute scenario = Ok r /\ unselected_contribute_nothing scenario r.
Proof.
  assert (H : exists r, compute scenario = Ok r /\
                        F64.is_finite (baselineFuelCost r) = true).
  { eexists. split; vm_compute; reflexivity. }
  destruct H as (r & Hr & Hf). exists r. split; [exact Hr|].
  exact (C4_unselected_contribute_nothing scenario r Hr Hf).
Defined.

(** C4 as stated fails when the baseline overflows: with 1e308 tons a day
    at 1e308 USD the entry of the unselected Voyage Optimization is NaN. *)
Lemma C4_counterexample :
  exists r, compute overflow_case = Ok r /\
            ~ unselected_contribute_nothing overflow_case r.
Proof.
  eexists. split; [vm_compute; reflexivity|].
  intros [H _].
  destruct (H "Voyage Optimization App"%string) as (z & Hz & Hzero).
  - right; left; reflexivity.
  - reflexivity.
  - vm_compute in Hz. injection Hz as <-. discriminate.
Qed.

Lemma filter_none {A : Type} (keep : A -> bool) xs :
  (forall x, In x xs -> keep x = false) -> filter keep xs = [].
Proof.
  induction xs as [|x xs IH]; intros H; [reflexivity|].
  cbn [filter]. rewrite (H x) by (left; reflexivity).
  apply IH. intros y Hy. apply H. right; exact Hy.
Qed.

Lemma total_nothing_selected inp bfc :
  no_application_selected inp ->
  F64.is_finite bfc = true ->
  Py.sum (values (amounts_of (selections inp) bfc (keys applications))) = F64.pos_zero.
Proof.
  intros Hn Hb. rewrite total_of_selected by exact Hb.
  rewrite selected_entries_amounts_of.
  rewrite filter_none by exact Hn. reflexivity.
Qed.

(** The ROI of a run that saved nothing: the licence cost is lost. *)
Lemma roi_percent_of_zero lca roi :
  0 < lca -> roi_percent F64.pos_zero lca = Ok roi -> roi = F64.of_Z (-100).
Proof.
  intros Hl. unfold roi_percent, int_bool.
  destruct (Z.eqb_spec lca 0) as [E|_]; [lia|]. cbn [negb].
  unfold float_sub_int, float_div_int.
  destruct (float_of_int lca) as [a|e] eqn:Ea; [|discriminate]. cbn [bind].
  apply float_of_int_Ok in Ea.
  destruct Ea as [_ [[E _]|[_ (p & e & -> & _)]]]; [lia|].
  replace (lca <? 0) with false by (symmetry; apply Z.ltb_ge; lia).
  unfold float_truediv. cbn [F64.is_zero bind].
  change (F64.sub F64.pos_zero (S754_finite false p e)) with (S754_finite true p e).
  rewrite div_self. rewrite float_mul_int_100.
  intros H. injection H as <-. reflexivity.
Qed.

(** C3, as the code has it: when no application is selected and the
    baseline fuel cost is finite, the total saving is zero, the payback in
    months is NaN and the ROI is -100 for a positive licence cost. *)
Theorem C3_nothing_selected inp r :
  compute inp = Ok r ->
  no_application_selected inp ->
  F64.is_finite (baselineFuelCost r) = true ->
  nothing_saved r.
Proof.
  intros H Hn Hfin. apply compute_Ok_inv in H.
  destruct H as (bfc & _ & _ & Hb & Ha & Ht & Hpy & Hpm & Hroi & _).
  rewrite Hb in Hfin.
  assert (Htot : totalSavingsAnnual r = F64.pos_zero).
  { rewrite Ht, Ha. apply total_nothing_selected; assumption. }
  rewrite Htot in Hpy, Hroi.
  assert (Hy : paybackYears r = F64.nan).
  { cbn in Hpy. injection Hpy as <-. reflexivity. }
  rewrite Hy in Hpm.
  assert (Hm : paybackMonths r = F64.nan).
  { cbn in Hpm. injection Hpm as <-. reflexivity. }
  unfold nothing_saved. rewrite Htot, Hm.
  split; [reflexivity|]. split; [reflexivity|].
  intros Hl. exact (roi_percent_of_zero _ _ Hl Hroi).
Qed.

Lemma C3_witness :
  exists r, compute scenario_nothing_selected = Ok r /\ nothing_saved r.
Proof.
  assert (H : exists r, compute scenario_nothing_selected = Ok r /\
                        F64.is_finite (baselineFuelCost r) = true).
  { eexists. split; vm_compute; reflexivity. }
  destruct H as (r & Hr & Hf). exists r. split; [exact Hr|].
  apply (C3_nothing_selected scenario_nothing_selected r Hr); [|exact Hf].
  intros k _. reflexivity.
Defined.

(** C3 as stated fails when the baseline overflows: fleet size, fuel
    price, consumption and days are positive and nothing is selected, yet
    the total saving is NaN, not zero, and so is the ROI. *)
Lemma C3_counterexample :
  0 < fleet_size overflow_nothing_selected /\
  0 < operating_days overflow_nothing_selected /\
  F64.is_pos (fuel_price overflow_nothing_selected) = true /\
  F64.is_pos (daily_consumption overflow_nothing_selected) = true /\
  no_application_selected overflow_nothing_selected /\
  exists r, compute overflow_nothing_selected = Ok r /\
            0 < licenseCostAnnual r /\ ~ nothing_saved r.
Proof.
  repeat split; try reflexivity.
  eexists. split; [vm_compute; reflexivity|].
  split; [reflexivity|].
  intros [H _]. vm_compute in H. discriminate.
Qed.

(** * Payback and ROI *)

Section SentinelFacts.

Import F64.

Lemma mul_finite_r_not_nan x sy my ey :
  is_nan x = false -> is_nan (mul x (S754_finite sy my ey)) = false.
Proof.
  destruct x as [sx|sx| |sx mx ex]; try discriminate; try reflexivity.
  intros _. unfold mul, SFmul.
  destruct (binary_round_aux_shape (xorb sx sy) (Zpos (mx * my)) (ex + ey) loc_Exact)
    as [E|[E|(p & e & E & Hr)]]; try lia; rewrite E; reflexivity.
Qed.

Lemma div_finite_r_not_nan x sy my ey :
  is_nan x = false -> is_nan (div x (S754_finite sy my ey)) = false.
Proof.
  destruct x as [sx|sx| |sx mx ex]; try discriminate; try reflexivity.
  intros _.
  destruct (div_finite_shape sx mx ex sy my ey) as [E|[E|(p & e & E & Hr)]];
    rewrite E; reflexivity.
Qed.

Lemma sub_finite_not_nan x y :
  is_finite x = true -> is_finite y = true -> is_nan (sub x y) = false.
Proof.
  intros Hx Hy.
  destruct x as [sx|sx| |sx mx ex], y as [sy|sy| |sy my ey];
    try discriminate; try reflexivity.
  - destruct sx, sy; reflexivity.
  - unfold sub, SFsub.
    set (z := cond_Zopp sx _ - cond_Zopp sy _). clearbody z.
    destruct z as [|q|q]; cbn [binary_normalize]; [reflexivity| |].
    + destruct (binary_round_shape false q (Z.min ex ey)) as [E|[E|(p & e2 & E & Hr)]];
        rewrite E; reflexivity.
    + destruct (binary_round_shape true q (Z.min ex ey)) as [E|[E|(p & e2 & E & Hr)]];
        rewrite E; reflexivity.
Qed.

Lemma mul_zero_or_nan x y : zero_or_nan x = true -> zero_or_nan (mul x y) = true.
Proof.
  destruct x as [sx|sx| |sx mx ex], y as [sy|sy| |sy my ey];
    try discriminate; reflexivity.
Qed.

Lemma div_zero_or_nan x sy my ey :
  zero_or_nan x = true -> zero_or_nan (div x (S754_finite sy my ey)) = true.
Proof. destruct x as [sx|sx| |sx mx ex]; try discriminate; reflexivity. Qed.

Lemma add_zero_or_nan x y :
  zero_or_nan x = true -> zero_or_nan y = true -> zero_or_nan (add x y) = true.
Proof.
  destruct x as [sx|sx| |sx mx ex], y as [sy|sy| |sy my ey];
    try discriminate; try reflexivity.
  destruct sx, sy; reflexivity.
Qed.

End SentinelFacts.

Lemma fold_add_zero_or_nan xs : forall acc,
  zero_or_nan acc = true ->
  (forall x, In x xs -> zero_or_nan x = true) ->
  zero_or_nan (fold_left F64.add xs acc) = true.
Proof.
  induction xs as [|x xs IH]; intros acc Ha Hxs; cbn [fold_left]; [exact Ha|].
  apply IH.
  - apply add_zero_or_nan; [exact Ha|]. apply Hxs. left; reflexivity.
  - intros y Hy. apply Hxs. right; exact Hy.
Qed.

(** Without a vessel every saving, and their total, is a zero or NaN. *)
Lemma baseline_no_vessel d o p bfc :
  baseline_fuel_cost 0 d o p = Ok bfc -> zero_or_nan bfc = true.
Proof.
  unfold baseline_fuel_cost, int_mul_float, float_mul_int.
  change (float_of_int 0) with (Ok (S754_zero false)). cbn [bind].
  destruct (float_of_int o) as [b|e]; [|discriminate]. cbn [bind].
  intros H. injection H as <-.
  destruct d, b, p; reflexivity.
Qed.

Lemma total_no_vessel sel bfc names :
  zero_or_nan bfc = true ->
  zero_or_nan (Py.sum (values (amounts_of sel bfc names))) = true.
Proof.
  intros Hb. rewrite values_amounts_of. apply fold_add_zero_or_nan; [reflexivity|].
  intros x Hx. apply in_map_iff in Hx. destruct Hx as (k & <- & _).
  unfold amount_of. rewrite of_Z_100.
  apply div_zero_or_nan. apply mul_zero_or_nan. exact Hb.
Qed.

Lemma total_in_range sel bfc names :
  F64.in_range (Py.sum (values (amounts_of sel bfc names))).
Proof.
  rewrite values_amounts_of. apply fold_add_invariant.
  - discriminate.
  - exact I.
  - intros x Hx. apply in_map_iff in Hx. destruct Hx as (k & <- & _).
    apply amount_of_in_range.
Qed.

(** The licence cost over a finite saving is a number, and not zero. *)
Lemma payback_quotient a st mt et :
  (exists sa pa ea, a = S754_finite sa pa ea /\ 1 <= Zpos (digits2_pos pa) + ea) ->
  F64.in_range (S754_finite st mt et) ->
  F64.is_nan (F64.div a (S754_finite st mt et)) = false /\
  F64.is_zero (F64.div a (S754_finite st mt et)) = false.
Proof.
  intros (sa & pa & ea & -> & Hmag) [Hd He].
  destruct (div_finite_big sa pa ea st mt et) as [E|(p & e & E & _)].
  - lia.
  - rewrite E. split; reflexivity.
  - rewrite E. split; reflexivity.
Qed.

Lemma of_Z_12 : F64.of_Z 12 = S754_finite false 6755399441055744 (-49).
Proof. reflexivity. Qed.

Lemma Ok_inj {A : Type} (a b : A) : Ok a = Ok b -> a = b.
Proof. intros H. injection H as ->. reflexivity. Qed.

Lemma payback_of_zero lca st py pm :
  payback_years lca (S754_zero st) = Ok py ->
  payback_months py = Ok pm ->
  py = F64.nan /\ pm = F64.nan.
Proof.
  cbn. intros H. injection H as <-. cbn. intros H. injection H as <-.
  split; reflexivity.
Qed.

Lemma payback_of_finite lca st mt et py pm :
  lca <> 0 ->
  F64.in_range (S754_finite st mt et) ->
  payback_years lca (S754_finite st mt et) = Ok py ->
  payback_months py = Ok pm ->
  py = F64.div (F64.of_Z lca) (S754_finite st mt et) /\
  pm = F64.mul py (F64.of_Z 12) /\
  F64.is_nan py = false /\ F64.is_nan pm = false.
Proof.
  intros Hl Hr. unfold payback_years, int_div_float. cbn [float_bool F64.is_zero negb].
  destruct (float_of_int lca) as [a|e] eqn:Ea; [|discriminate]. cbn [bind].
  unfold float_truediv. cbn [F64.is_zero].
  intros H. injection H as <-.
  apply float_of_int_Ok in Ea.
  destruct Ea as [Ea [[E _]|[_ (p & e & Hp & Hmag & _)]]]; [contradiction|].
  destruct (payback_quotient a st mt et) as [Hnan Hzero].
  { exists (lca <? 0), p, e. split; assumption. }
  { exact Hr. }
  unfold payback_months, float_bool. rewrite Hzero. cbn [negb].
  rewrite float_mul_int_12. intros H. apply Ok_inj in H. subst pm.
  rewrite <- Ea. repeat split; try assumption.
  rewrite of_Z_12. apply mul_finite_r_not_nan. exact Hnan.
Qed.

Lemma roi_percent_of_no_cost total roi :
  roi_percent total 0 = Ok roi -> roi = F64.nan.
Proof. cbn. intros H. injection H as <-. reflexivity. Qed.

Lemma roi_percent_of_finite total lca roi :
  lca <> 0 ->
  F64.is_finite total = true ->
  roi_percent total lca = Ok roi ->
  roi = F64.mul (F64.div (F64.sub total (F64.of_Z lca)) (F64.of_Z lca))
                (F64.of_Z 100) /\
  F64.is_nan roi = false.
Proof.
  intros Hl Hfin. unfold roi_percent, int_bool.
  destruct (Z.eqb_spec lca 0) as [E|_]; [contradiction|]. cbn [negb].
  unfold float_sub_int, float_div_int.
  destruct (float_of_int lca) as [a|e] eqn:Ea; [|discriminate]. cbn [bind].
  apply float_of_int_Ok in Ea.
  destruct Ea as [Ea [[E _]|[_ (p & e & Hp & _)]]]; [contradiction|].
  unfold float_truediv. rewrite Hp. cbn [F64.is_zero bind].
  rewrite float_mul_int_100. intros H. apply Ok_inj in H. subst roi.
  rewrite <- Ea, Hp. split; [reflexivity|].
  rewrite of_Z_100. apply mul_finite_r_not_nan. apply div_finite_r_not_nan.
  apply sub_finite_not_nan; [exact Hfin|reflexivity].
Qed.

Lemma sentinel_contract_finite inp r :
  compute inp = Ok r ->
  F64.is_finite (totalSavingsAnnual r) = true ->
  sentinel_contract r.
Proof.
  intros H Hfin. apply compute_Ok_inv in H.
  destruct H as (bfc & Hbfc & Hl & Hb & Ha & Ht & Hpy & Hpm & Hroi & _).
  assert (Hr : F64.in_range (totalSavingsAnnual r)).
  { rewrite Ht, Ha. apply total_in_range. }
  assert (Hl0 : licenseCostAnnual r = 0 -> F64.is_zero (totalSavingsAnnual r) = true).
  { intros E. rewrite Hl in E.
    unfold license_cost_annual, LICENSE_COST_PER_VESSEL_PER_MONTH in E.
    assert (E0 : fleet_size inp = 0) by lia.
    rewrite E0 in Hbfc. apply baseline_no_vessel in Hbfc.
    pose proof (total_no_vessel (selections inp) bfc (keys applications) Hbfc) as Hz.
    rewrite <- Ha, <- Ht in Hz. unfold zero_or_nan in Hz.
    destruct (totalSavingsAnnual r); try discriminate; reflexivity. }
  assert (Hroi' :
    (F64.is_nan (roiPercentAnnual r) = true <-> licenseCostAnnual r = 0) /\
    (licenseCostAnnual r <> 0 ->
     roiPercentAnnual r =
       F64.mul (F64.div (F64.sub (totalSavingsAnnual r) (F64.of_Z (licenseCostAnnual r)))
                        (F64.of_Z (licenseCostAnnual r))) (F64.of_Z 100))).
  { destruct (Z.eq_dec (licenseCostAnnual r) 0) as [E|Hn].
    - rewrite E in *. apply roi_percent_of_no_cost in Hroi. rewrite Hroi.
      split; [split; reflexivity|]. intros Hc; contradiction.
    - destruct (roi_percent_of_finite _ _ _ Hn Hfin Hroi) as [Heq Hnan].
      split; [|intros _; exact Heq]. split.
      + intros Hc. rewrite Hnan in Hc. discriminate.
      + intros Hc. contradiction. }
  unfold sentinel_contract. cbv zeta.
  destruct Hroi' as [Hroi1 Hroi2].
  destruct (totalSavingsAnnual r) as [st|st| |st mt et] eqn:Etot; try discriminate.
  - destruct (payback_of_zero _ _ _ _ Hpy Hpm) as [Ey Em]. rewrite Ey, Em.
    cbn [F64.is_zero F64.is_nan F64.nan].
    split; [tauto|]. split; [tauto|]. split; [discriminate|].
    split; assumption.
  - assert (Hn : licenseCostAnnual r <> 0).
    { intros E. apply Hl0 in E. discriminate. }
    destruct (payback_of_finite _ _ _ _ _ _ Hn Hr Hpy Hpm) as (Ey & Em & Ny & Nm).
    rewrite Ny, Nm. cbn [F64.is_zero].
    split; [split; discriminate|]. split; [split; discriminate|].
    split; [intros _; split; assumption|].
    split; assumption.
Qed.

(** C2, as the code has it: a zero denominator of the payback or of the
    annual ROI never raises, it yields NaN; and when the total saving is
    finite, the payback in years and in months is NaN exactly for a total
    of zero and otherwise the licence cost over the total, times 12 for
    the months, and the ROI is NaN exactly for a licence cost of zero and
    otherwise (total - cost) / cost * 100. *)
Theorem C2_sentinels_finite_total :
  (forall lca total, payback_years lca total <> Raise ZeroDivisionError) /\
  (forall py, exists pm, payback_months py = Ok pm) /\
  (forall total lca, roi_percent total lca <> Raise ZeroDivisionError) /\
  (forall inp r,
     compute inp = Ok r ->
     F64.is_finite (totalSavingsAnnual r) = true ->
     sentinel_contract r).
Proof.
  split; [exact payback_years_no_zero_division|].
  split; [exact payback_months_returns|].
  split; [exact roi_percent_no_zero_division|].
  exact sentinel_contract_finite.
Qed.

Lemma C2_witness :
  exists r, compute scenario = Ok r /\ sentinel_contract r.
Proof.
  assert (H : exists r, compute scenario = Ok r /\
                        F64.is_finite (totalSavingsAnnual r) = true).
  { eexists. split; vm_compute; reflexivity. }
  destruct H as (r & Hr & Hf). exists r. split; [exact Hr|].
  exact (proj2 (proj2 (proj2 C2_sentinels_finite_total)) scenario r Hr Hf).
Defined.

(** C2 as stated fails when the baseline overflows: with 1e308 tons a day
    at 1e308 USD the total saving is NaN, which is not zero, and the
    payback is NaN all the same. *)
Lemma C2_counterexample :
  exists r, compute overflow_case = Ok r /\ ~ sentinel_contract r.
Proof.
  eexists. split; [vm_compute; reflexivity|].
  intros [[H _] _]. specialize (H eq_refl). discriminate.
Qed.

(** * Doubling: rounding one binade higher *)

Section DoublingFacts.

Import F64.

Lemma iter_pos_eq {A : Type} (f : A -> A) p : forall x,
  iter_pos f p x = Pos.iter f x p.
Proof.
  induction p as [p IH|p IH|]; intros x; cbn [iter_pos Pos.iter].
  - rewrite !IH. rewrite Pos.iter_swap. rewrite Pos.iter_swap. reflexivity.
  - rewrite !IH. reflexivity.
  - reflexivity.
Qed.

(** Above the subnormal range the exponent of the format follows the
    exponent of the mantissa. *)
Lemma fexp_succ x : -1021 <= x -> fexp prec emax (x + 1) = fexp prec emax x + 1.
Proof. intros H. rewrite !fexp_eq. lia. Qed.

Lemma shr_succ_exp mrs e n :
  shr mrs (e + 1) n = (fst (shr mrs e n), snd (shr mrs e n) + 1).
Proof. destruct n; cbn [shr fst snd]; f_equal; lia. Qed.

Lemma shr_fexp_succ_exp m e l :
  -1021 <= Zdigits2 m + e ->
  shr_fexp prec emax m (e + 1) l =
    (fst (shr_fexp prec emax m e l), snd (shr_fexp prec emax m e l) + 1).
Proof.
  intros H. unfold shr_fexp.
  replace (fexp prec emax (Zdigits2 m + (e + 1)) - (e + 1))
    with (fexp prec emax (Zdigits2 m + e) - e).
  - apply shr_succ_exp.
  - replace (Zdigits2 m + (e + 1)) with (Zdigits2 m + e + 1) by lia.
    rewrite fexp_succ by exact H. lia.
Qed.

(** Rounding the same mantissa one exponent higher doubles the result. *)
Lemma binary_round_aux_succ_exp s m e l :
  0 < m -> -1021 <= Zdigits2 m + e ->
  binary_round_aux prec emax s m (e + 1) l =
    double (binary_round_aux prec emax s m e l).
Proof.
  intros Hm Hbig. unfold binary_round_aux.
  rewrite shr_fexp_succ_exp by exact Hbig.
  destruct (shr_fexp_spec m e l ltac:(lia)) as [Hm1 He1].
  destruct (shifted_big m e Hm ltac:(lia)) as [Hp Hmag].
  unfold shifted_m, shifted_e in Hp, Hmag.
  destruct (shr_fexp prec emax m e l) as [mrs' e'] eqn:E1. cbn [fst snd] in *.
  rewrite <- Hm1, <- He1 in Hmag. rewrite <- Hm1 in Hp.
  set (m1 := round_nearest_even (shr_m mrs') (loc_of_shr_record mrs')).
  assert (Hr : shr_m mrs' <= m1 <= shr_m mrs' + 1) by apply round_nearest_even_bounds.
  assert (Hd : Zdigits2 (shr_m mrs') <= Zdigits2 m1) by (apply Zdigits2_le; lia).
  rewrite shr_fexp_succ_exp by lia.
  destruct (shr_fexp prec emax m1 e' loc_Exact) as [mrs'' e''] eqn:E2.
  cbn [fst snd].
  destruct (shr_m mrs'') as [|p|p]; try reflexivity.
  change (emax - prec) with 971. unfold double.
  destruct (Z.leb_spec (e'' + 1) 971), (Z.leb_spec e'' 971);
    change (emax - prec) with 971; try reflexivity; try lia.
  - destruct (Z.leb_spec (e'' + 1) 971); [reflexivity|lia].
  - destruct (Z.leb_spec (e'' + 1) 971); [lia|reflexivity].
Qed.

Lemma shl_align_succ_exp mx ex ex' :
  shl_align mx (ex + 1) (ex' + 1) =
    (fst (shl_align mx ex ex'), snd (shl_align mx ex ex') + 1).
Proof.
  unfold shl_align. replace (ex' + 1 - (ex + 1)) with (ex' - ex) by lia.
  destruct (ex' - ex); reflexivity.
Qed.

Lemma binary_round_succ_exp s mx ex :
  -1021 <= Zpos (digits2_pos mx) + ex ->
  binary_round prec emax s mx (ex + 1) = double (binary_round prec emax s mx ex).
Proof.
  intros Hbig. unfold binary_round.
  replace (Z.pos (digits2_pos mx) + (ex + 1)) with (Z.pos (digits2_pos mx) + ex + 1)
    by lia.
  rewrite fexp_succ by exact Hbig.
  rewrite shl_align_succ_exp.
  destruct (shl_align_spec mx ex (fexp prec emax (Z.pos (digits2_pos mx) + ex)))
    as (Hmag & _ & _).
  destruct (shl_align mx ex _) as [mz ez]. cbn [fst snd] in *.
  apply binary_round_aux_succ_exp; [lia|].
  cbn [Zdigits2] in *. lia.
Qed.

(** An even mantissa is half the mantissa one exponent higher. *)
Lemma binary_round_aux_even s q e :
  1 <= shift_of (Zpos q~0) e ->
  binary_round_aux prec emax s (Zpos q~0) e loc_Exact =
    binary_round_aux prec emax s (Zpos q) (e + 1) loc_Exact.
Proof.
  intros Hs. unfold shift_of in Hs. cbn [Zdigits2 digits2_pos] in Hs.
  rewrite Pos2Z.inj_succ in Hs.
  unfold binary_round_aux.
  assert (E : shr_fexp prec emax (Zpos q~0) e loc_Exact =
              shr_fexp prec emax (Zpos q) (e + 1) loc_Exact).
  { unfold shr_fexp. cbn [Zdigits2 digits2_pos shr_record_of_loc].
    rewrite Pos2Z.inj_succ.
    replace (Z.pos (digits2_pos q) + (e + 1)) with (Z.succ (Z.pos (digits2_pos q)) + e)
      by lia.
    set (t := fexp prec emax (Z.succ (Z.pos (digits2_pos q)) + e)) in *.
    destruct (t - e) as [|k|k] eqn:Ek; try lia.
    replace (t - (e + 1)) with (Z.pos k - 1) by lia.
    unfold shr. destruct (Z.pos k - 1) as [|j|j] eqn:Ej; try lia.
    - assert (k = 1%positive) by lia. subst k. cbn. f_equal.
    - assert (k = Pos.succ j) by lia. subst k.
      rewrite !iter_pos_eq. rewrite Pos.iter_succ_r. cbn [shr_1].
      f_equal. lia. }
  rewrite E. reflexivity.
Qed.

Lemma binary_round_even s q e :
  binary_round prec emax s q~0 e = binary_round prec emax s q (e + 1).
Proof.
  unfold binary_round. cbn [digits2_pos]. rewrite Pos2Z.inj_succ.
  replace (Z.pos (digits2_pos q) + (e + 1)) with (Z.succ (Z.pos (digits2_pos q)) + e)
    by lia.
  set (t := fexp prec emax (Z.succ (Z.pos (digits2_pos q)) + e)).
  unfold shl_align.
  destruct (t - e) as [|k|k] eqn:Ek.
  - replace (t - (e + 1)) with (Z.neg 1) by lia.
    cbn [Pos.iter]. replace t with e by lia. reflexivity.
  - destruct (t - (e + 1)) as [|j|j] eqn:Ej; try lia;
      apply binary_round_aux_even; unfold shift_of; cbn [Zdigits2 digits2_pos];
      rewrite Pos2Z.inj_succ; fold t; lia.
  - replace (t - (e + 1)) with (Z.neg (Pos.succ k)) by lia.
    rewrite Pos.iter_succ_r. reflexivity.
Qed.

Lemma of_Z_double n : of_Z (2 * n) = double (of_Z n).
Proof.
  destruct n as [|q|q]; [reflexivity| |].
  - change (2 * Z.pos q) with (Z.pos q~0). unfold of_Z, binary_normalize.
    rewrite binary_round_even. apply binary_round_succ_exp. lia.
  - change (2 * Z.neg q) with (Z.neg q~0). unfold of_Z, binary_normalize.
    rewrite binary_round_even. apply binary_round_succ_exp. lia.
Qed.

End DoublingFacts.

Section DoublingOperations.

Import F64.

Lemma Zdigits2_mul_ge mx my :
  Zpos (digits2_pos mx) + Zpos (digits2_pos my) - 1 <= Zpos (digits2_pos (mx * my)).
Proof.
  change (Zdigits2 (Zpos mx) + Zdigits2 (Zpos my) - 1 <= Zdigits2 (Zpos (mx * my))).
  set (dx := Zdigits2 (Zpos mx)). set (dy := Zdigits2 (Zpos my)).
  pose proof (Zdigits2_bounds (Zpos mx) ltac:(lia)) as [Hx _]. fold dx in Hx.
  pose proof (Zdigits2_bounds (Zpos my) ltac:(lia)) as [Hy _]. fold dy in Hy.
  assert (Hdx : 1 <= dx) by (unfold dx; simpl; lia).
  assert (Hdy : 1 <= dy) by (unfold dy; simpl; lia).
  assert (Hp : 2 ^ (dx + dy - 1 - 1) <= Zpos (mx * my)).
  { replace (dx + dy - 1 - 1) with ((dx - 1) + (dy - 1)) by lia.
    rewrite Z.pow_add_r by lia. rewrite Pos2Z.inj_mul.
    apply Z.mul_le_mono_nonneg; try assumption; apply Z.pow_nonneg; lia. }
  rewrite <- (Zdigits2_unique (2 ^ (dx + dy - 1 - 1)) (dx + dy - 1)) at 1.
  - apply Zdigits2_le. split; [apply Z.pow_nonneg; lia|exact Hp].
  - lia.
  - split; [lia|]. apply Z.pow_lt_mono_r; lia.
Qed.

Lemma mul_finite_l x y : is_finite (mul x y) = true -> is_finite x = true.
Proof.
  destruct x as [sx|sx| |sx mx ex], y as [sy|sy| |sy my ey];
    try discriminate; reflexivity.
Qed.

Lemma div_by_finite_finite_l x sy my ey :
  is_finite (div x (S754_finite sy my ey)) = true -> is_finite x = true.
Proof. destruct x as [sx|sx| |sx mx ex]; try discriminate; reflexivity. Qed.

Lemma add_finite_both x y :
  is_finite (add x y) = true -> is_finite x = true /\ is_finite y = true.
Proof.
  destruct x as [sx|sx| |sx mx ex], y as [sy|sy| |sy my ey];
    try discriminate; try (split; reflexivity).
  destruct sx, sy; discriminate.
Qed.

Lemma double_finite x : is_finite (double x) = true -> is_finite x = true.
Proof. destruct x; try discriminate; reflexivity. Qed.

(** The product of a doubled positive factor. *)
Lemma mul_double_pos a b x y :
  pos_mag a x -> pos_mag b y -> -1021 <= a + b - 1 ->
  is_finite (mul (double x) y) = true ->
  mul (double x) y = double (mul x y) /\ pos_mag (a + b - 1) (mul x y).
Proof.
  intros Hx Hy Hab Hfin.
  destruct x as [| | |[] mx ex]; try contradiction.
  destruct y as [| | |[] my ey]; try contradiction.
  cbn [pos_mag] in Hx, Hy.
  pose proof (Zdigits2_mul_ge mx my) as Hd.
  assert (E : mul (double (S754_finite false mx ex)) (S754_finite false my ey) =
              double (mul (S754_finite false mx ex) (S754_finite false my ey))).
  { revert Hfin. unfold double at 1 2. change (emax - prec) with 971.
    destruct (Z.leb_spec (ex + 1) 971); [intros _|discriminate].
    unfold mul, SFmul. replace (ex + 1 + ey) with (ex + ey + 1) by lia.
    apply binary_round_aux_succ_exp; [lia|]. cbn [Zdigits2]. lia. }
  split; [exact E|].
  rewrite E in Hfin. apply double_finite in Hfin.
  revert Hfin. unfold mul, SFmul. cbn [xorb].
  destruct (binary_round_aux_big false (Zpos (mx * my)) (ex + ey) loc_Exact)
    as [E2|(p & e2 & E2 & Hm & _)]; try (cbn [Zdigits2]; lia);
    rewrite E2; [discriminate|].
  intros _. cbn [pos_mag]. cbn [Zdigits2] in Hm. lia.
Qed.

(** The quotient of the mantissas is positive and no smaller than the
    quotient of the operands. *)
Lemma div_quotient_big mx ex my ey :
  -1074 < Zpos (digits2_pos mx) + ex - (Zpos (digits2_pos my) + ey) ->
  let e' := Z.min (fexp prec emax (Zdigits2 (Zpos mx) + ex - (Zdigits2 (Zpos my) + ey)))
                  (ex - ey) in
  let a := Zpos mx * 2 ^ (ex - ey - e') in
  0 < a / Zpos my /\
  Zpos (digits2_pos mx) + ex - (Zpos (digits2_pos my) + ey)
    <= Zdigits2 (a / Zpos my) + e'.
Proof.
  intros Hbig. cbv zeta. cbn [Zdigits2].
  set (d1 := Zpos (digits2_pos mx)) in *. set (d2 := Zpos (digits2_pos my)) in *.
  set (e' := Z.min (fexp prec emax (d1 + ex - (d2 + ey))) (ex - ey)).
  set (a := Z.pos mx * 2 ^ (ex - ey - e')).
  assert (He' : e' <= ex - ey /\ e' <= Z.max (d1 + ex - (d2 + ey) - 53) (-1074)).
  { unfold e'. rewrite fexp_eq. lia. }
  set (k := d1 + (ex - ey - e') - d2).
  assert (Hk : 1 <= k) by (unfold k; lia).
  assert (Hd1 : Zdigits2 a = d1 + (ex - ey - e')).
  { unfold a. rewrite Zdigits2_mul_pow2 by lia. reflexivity. }
  assert (Ha : 0 < a).
  { unfold a. pose proof (Z.pow_pos_nonneg 2 (ex - ey - e')). nia. }
  pose proof (Zdigits2_bounds a Ha) as [Hlo _]. rewrite Hd1 in Hlo.
  pose proof (Zdigits2_bounds (Zpos my) ltac:(lia)) as [_ Hhi].
  change (Zdigits2 (Zpos my)) with d2 in Hhi.
  assert (Hq : 2 ^ (k - 1) <= a / Zpos my).
  { apply Z.div_le_lower_bound; [lia|].
    assert (Z.pos my * 2 ^ (k - 1) <= 2 ^ d2 * 2 ^ (k - 1)).
    { apply Z.mul_le_mono_nonneg_r; [apply Z.pow_nonneg; lia|lia]. }
    rewrite <- Z.pow_add_r in H by (unfold d2; lia).
    replace (d2 + (k - 1)) with (d1 + (ex - ey - e') - 1) in H by (unfold k; lia).
    lia. }
  assert (Hq0 : 0 < a / Zpos my).
  { pose proof (Z.pow_pos_nonneg 2 (k - 1)). lia. }
  assert (Hdq : k <= Zdigits2 (a / Zpos my)).
  { rewrite <- (Zdigits2_unique (2 ^ (k - 1)) k) at 1.
    - apply Zdigits2_le. pose proof (Z.pow_pos_nonneg 2 (k - 1)). lia.
    - lia.
    - split; [lia|]. apply Z.pow_lt_mono_r; lia. }
  split; [exact Hq0|]. unfold k in Hdq. lia.
Qed.

(** The quotient of a doubled positive dividend. *)
Lemma div_double_pos a x my ey :
  pos_mag a x -> -1021 <= a - (Zpos (digits2_pos my) + ey) ->
  is_finite (div (double x) (S754_finite false my ey)) = true ->
  div (double x) (S754_finite false my ey) = double (div x (S754_finite false my ey)) /\
  pos_mag (a - (Zpos (digits2_pos my) + ey)) (div x (S754_finite false my ey)).
Proof.
  intros Hx Hab Hfin.
  destruct x as [| | |[] mx ex]; try contradiction.
  cbn [pos_mag] in Hx.
  destruct (div_quotient_big mx ex my ey ltac:(lia)) as [Hq Hdq].
  assert (E : div (double (S754_finite false mx ex)) (S754_finite false my ey) =
              double (div (S754_finite false mx ex) (S754_finite false my ey))).
  { revert Hfin. unfold double at 1 2. change (emax - prec) with 971.
    destruct (Z.leb_spec (ex + 1) 971); [intros _|discriminate].
    rewrite !div_finite. cbv zeta.
    replace (Zdigits2 (Z.pos mx) + (ex + 1) - (Zdigits2 (Z.pos my) + ey))
      with (Zdigits2 (Z.pos mx) + ex - (Zdigits2 (Z.pos my) + ey) + 1) by lia.
    rewrite fexp_succ by (cbn [Zdigits2]; lia).
    replace (ex + 1 - ey) with (ex - ey + 1) by lia.
    rewrite Z.add_min_distr_r.
    set (e' := Z.min _ (ex - ey)) in *.
    replace (ex - ey + 1 - (e' + 1)) with (ex - ey - e') by lia.
    apply binary_round_aux_succ_exp; [exact Hq|lia]. }
  split; [exact E|].
  rewrite E in Hfin. apply double_finite in Hfin. revert Hfin.
  destruct (div_finite_big false mx ex false my ey ltac:(lia))
    as [E2|(p & e2 & E2 & Hm & _)]; rewrite E2; [discriminate|].
  intros _. cbn [xorb pos_mag]. lia.
Qed.

(** The sum of two doubled positive terms. *)
Lemma add_double_pos a x y :
  pos_mag a x -> pos_mag a y -> -1021 <= a ->
  is_finite (add (double x) (double y)) = true ->
  add (double x) (double y) = double (add x y) /\ pos_mag a (add x y).
Proof.
  intros Hx Hy Ha Hfin.
  destruct x as [| | |[] mx ex]; try contradiction.
  destruct y as [| | |[] my ey]; try contradiction.
  cbn [pos_mag] in Hx, Hy.
  destruct (shl_align_spec mx ex (Z.min ex ey)) as (Hmx & _ & _).
  assert (Hsx : snd (shl_align mx ex (Z.min ex ey)) = Z.min ex ey).
  { destruct (shl_align_spec mx ex (Z.min ex ey)) as (_ & -> & _). lia. }
  rewrite Hsx in Hmx. cbn [Zdigits2] in Hmx.
  set (q := (fst (shl_align mx ex (Z.min ex ey)) +
             fst (shl_align my ey (Z.min ex ey)))%positive).
  assert (Hq : Zpos (digits2_pos (fst (shl_align mx ex (Z.min ex ey))))
               <= Zpos (digits2_pos q)).
  { change (Zdigits2 (Zpos (fst (shl_align mx ex (Z.min ex ey)))) <= Zdigits2 (Zpos q)).
    apply Zdigits2_le. unfold q. lia. }
  assert (Hadd : add (S754_finite false mx ex) (S754_finite false my ey) =
                 binary_round prec emax false q (Z.min ex ey)).
  { reflexivity. }
  assert (E : add (double (S754_finite false mx ex)) (double (S754_finite false my ey)) =
              double (add (S754_finite false mx ex) (S754_finite false my ey))).
  { rewrite Hadd. revert Hfin. unfold double at 1 2 3 4. change (emax - prec) with 971.
    destruct (Z.leb_spec (ex + 1) 971), (Z.leb_spec (ey + 1) 971);
      try discriminate. intros _.
    unfold add, SFadd. rewrite Z.add_min_distr_r.
    rewrite !shl_align_succ_exp. cbn [fst cond_Zopp binary_normalize Z.add].
    fold q. apply binary_round_succ_exp. lia. }
  split; [exact E|].
  rewrite E in Hfin. apply double_finite in Hfin. revert Hfin. rewrite Hadd.
  destruct (binary_round_big false q (Z.min ex ey) ltac:(lia))
    as [E2|(p & e2 & E2 & Hm & _)]; rewrite E2; [discriminate|].
  intros _. cbn [pos_mag]. lia.
Qed.

Lemma double_zero x : is_zero x = true -> double x = x.
Proof. destruct x; try discriminate; reflexivity. Qed.

Lemma add_zero_l_pos a x y :
  is_zero x = true -> pos_mag a y -> add x y = y.
Proof.
  destruct x; try discriminate. destruct y as [| | |[] my ey]; try contradiction.
  reflexivity.
Qed.

Lemma add_zero_r_pos a x y :
  pos_mag a x -> is_zero y = true -> add x y = x.
Proof.
  destruct y; try discriminate. destruct x as [| | |[] mx ex]; try contradiction.
  reflexivity.
Qed.

Lemma add_double_zero_or_pos a x y :
  zero_or_pos_mag a x -> zero_or_pos_mag a y -> -1021 <= a ->
  is_finite (add (double x) (double y)) = true ->
  add (double x) (double y) = double (add x y) /\ zero_or_pos_mag a (add x y).
Proof.
  intros Hx Hy Ha Hfin.
  destruct x as [sx| | |sx mx ex] eqn:Ex; try contradiction;
    destruct y as [sy| | |sy my ey] eqn:Ey; try contradiction.
  - split; [|destruct sx, sy; exact I]. destruct sx, sy; reflexivity.
  - cbn [zero_or_pos_mag] in Hy. rewrite (double_zero (S754_zero sx)) by reflexivity.
    destruct sy; [contradiction|].
    assert (Hd : add (S754_zero sx) (double (S754_finite false my ey)) =
                 double (S754_finite false my ey)).
    { unfold double. destruct (ey + 1 <=? emax - prec); reflexivity. }
    rewrite Hd. split; [reflexivity|exact Hy].
  - cbn [zero_or_pos_mag] in Hx. rewrite (double_zero (S754_zero sy)) by reflexivity.
    destruct sx; [contradiction|].
    assert (Hd : add (double (S754_finite false mx ex)) (S754_zero sy) =
                 double (S754_finite false mx ex)).
    { unfold double. destruct (ex + 1 <=? emax - prec); reflexivity. }
    rewrite Hd. split; [reflexivity|exact Hx].
  - cbn [zero_or_pos_mag] in Hx, Hy.
    destruct (add_double_pos a _ _ Hx Hy Ha Hfin) as [E Hp].
    split; [exact E|].
    destruct (add (S754_finite sx mx ex) (S754_finite sy my ey)); try contradiction.
    exact Hp.
Qed.

End DoublingOperations.

(** * Doubling the fleet *)

Lemma at_least_one_pos_mag x : at_least_one x = true -> pos_mag 1 x.
Proof.
  destruct x as [| | |[] m e]; try discriminate.
  cbn [at_least_one pos_mag]. intros H. apply Z.leb_le in H. exact H.
Qed.

Lemma float_of_int_pos_mag n a :
  1 <= n -> float_of_int n = Ok a -> a = F64.of_Z n /\ pos_mag 1 a.
Proof.
  intros Hn H. apply float_of_int_Ok in H.
  destruct H as [Ha [[E _]|[_ (p & e & Hp & Hmag & _)]]]; [lia|].
  split; [exact Ha|]. rewrite Hp.
  replace (n <? 0) with false by (symmetry; apply Z.ltb_ge; lia).
  exact Hmag.
Qed.

Lemma baseline_doubling n d o p b1 b2 :
  1 <= n -> 1 <= o ->
  at_least_one d = true -> at_least_one p = true ->
  baseline_fuel_cost n d o p = Ok b1 ->
  baseline_fuel_cost (2 * n) d o p = Ok b2 ->
  F64.is_finite b2 = true ->
  b2 = F64.double b1 /\ pos_mag 1 b1.
Proof.
  intros Hn Ho Hd Hp. unfold baseline_fuel_cost, int_mul_float, float_mul_int.
  destruct (float_of_int n) as [a1|?] eqn:E1; [|discriminate].
  destruct (float_of_int (2 * n)) as [a2|?] eqn:E2; [|discriminate].
  destruct (float_of_int o) as [c|?] eqn:E3; [|discriminate].
  cbn [bind]. intros H1 H2 Hfin.
  apply Ok_inj in H1. apply Ok_inj in H2. subst b1 b2.
  destruct (float_of_int_pos_mag n a1 Hn E1) as [Ea1 Ha1].
  destruct (float_of_int_pos_mag (2 * n) a2 ltac:(lia) E2) as [Ea2 _].
  destruct (float_of_int_pos_mag o c Ho E3) as [_ Hc].
  apply at_least_one_pos_mag in Hd. apply at_least_one_pos_mag in Hp.
  assert (Ea : a2 = F64.double a1).
  { rewrite Ea2, Ea1. apply of_Z_double. }
  clear Ea2 E2. subst a2.
  assert (Hf2 := mul_finite_l _ _ Hfin).
  assert (Hf1 := mul_finite_l _ _ Hf2).
  destruct (mul_double_pos 1 1 a1 d Ha1 Hd ltac:(lia) Hf1) as [Ex Hx].
  rewrite Ex in Hf2, Hfin |- *.
  destruct (mul_double_pos (1 + 1 - 1) 1 _ c Hx Hc ltac:(lia) Hf2) as [Ey Hy].
  rewrite Ey in Hfin |- *.
  destruct (mul_double_pos (1 + 1 - 1 + 1 - 1) 1 _ p Hy Hp ltac:(lia) Hfin)
    as [Eb Hb].
  split; [exact Eb|].
  destruct (F64.mul (F64.mul (F64.mul a1 d) c) p) as [| | |[] m e];
    try contradiction.
  cbn [pos_mag] in *. lia.
Qed.

Lemma pos_mag_zero_or_pos a b x :
  pos_mag a x -> b <= a -> zero_or_pos_mag b x.
Proof.
  destruct x as [| | |[] m e]; try contradiction.
  cbn [zero_or_pos_mag pos_mag]. lia.
Qed.

Lemma amount_doubling b pct :
  pos_mag 1 b -> percent_in_range pct = true ->
  F64.is_finite (amount_of (F64.double b) pct) = true ->
  amount_of (F64.double b) pct = F64.double (amount_of b pct) /\
  zero_or_pos_mag (-1020) (amount_of b pct).
Proof.
  intros Hb Hp. unfold amount_of. rewrite of_Z_100. intros Hfin.
  assert (Hw := div_by_finite_finite_l _ _ _ _ Hfin).
  destruct pct as [s| | |[] m e]; try discriminate.
  - destruct b as [| | |[] mb eb]; try contradiction.
    revert Hw Hfin. unfold F64.double.
    destruct (eb + 1 <=? F64.emax - F64.prec); [|discriminate].
    intros _ _. split; [reflexivity|exact I].
  - cbn [percent_in_range] in Hp. apply Z.leb_le in Hp.
    destruct (mul_double_pos 1 (-1013) b (S754_finite false m e) Hb Hp ltac:(lia) Hw)
      as [Ew Hpw].
    rewrite Ew in Hfin |- *.
    assert (H100 : -1021 <= 1 + -1013 - 1 - (Z.pos (digits2_pos 7036874417766400) + -46)).
    { change (Z.pos (digits2_pos 7036874417766400)) with 53. lia. }
    destruct (div_double_pos (1 + -1013 - 1) _ 7036874417766400 (-46) Hpw H100 Hfin)
      as [Ed Hpd].
    split; [exact Ed|].
    apply (pos_mag_zero_or_pos _ _ _ Hpd).
    change (Z.pos (digits2_pos 7036874417766400)) with 53. lia.
Qed.

Lemma fold_add_finite_acc xs : forall acc,
  F64.is_finite (fold_left F64.add xs acc) = true -> F64.is_finite acc = true.
Proof.
  induction xs as [|x xs IH]; intros acc H; cbn [fold_left] in H; [exact H|].
  apply IH in H. apply add_finite_both in H. tauto.
Qed.

Lemma fold_add_finite_elems xs : forall acc x,
  F64.is_finite (fold_left F64.add xs acc) = true ->
  In x xs -> F64.is_finite x = true.
Proof.
  induction xs as [|y xs IH]; intros acc x H Hin; [contradiction|].
  cbn [fold_left] in H. destruct Hin as [<-|Hin].
  - apply fold_add_finite_acc in H. apply add_finite_both in H. tauto.
  - exact (IH _ _ H Hin).
Qed.

Lemma sum_doubling {A : Type} (f1 f2 : A -> float) names : forall acc1 acc2,
  acc2 = F64.double acc1 ->
  zero_or_pos_mag (-1020) acc1 ->
  (forall k, In k names -> F64.is_finite (f2 k) = true ->
     f2 k = F64.double (f1 k) /\ zero_or_pos_mag (-1020) (f1 k)) ->
  F64.is_finite (fold_left F64.add (map f2 names) acc2) = true ->
  fold_left F64.add (map f2 names) acc2 =
    F64.double (fold_left F64.add (map f1 names) acc1).
Proof.
  induction names as [|k names IH]; intros acc1 acc2 Ha Hz Hf Hfin;
    cbn [map fold_left] in *; [exact Ha|].
  assert (Hstep := fold_add_finite_acc _ _ Hfin).
  destruct (add_finite_both _ _ Hstep) as [_ Hk].
  destruct (Hf k (or_introl eq_refl) Hk) as [Ek Hzk].
  rewrite Ek, Ha in Hstep.
  destruct (add_double_zero_or_pos (-1020) acc1 (f1 k) Hz Hzk ltac:(lia) Hstep)
    as [E Hz'].
  apply IH.
  - rewrite Ek, Ha. exact E.
  - exact Hz'.
  - intros j Hj. apply Hf. right; exact Hj.
  - exact Hfin.
Qed.

Lemma license_cost_annual_double n :
  license_cost_annual (2 * n) = 2 * license_cost_annual n.
Proof. unfold license_cost_annual. lia. Qed.

(** X1: for a fleet of one vessel or more, one operating day or more, a
    consumption and a fuel price of at least 1.0, percentages that are zero
    or at least 2^-1014, and a doubled fleet whose total saving is finite,
    doubling the fleet size doubles the licence cost, the baseline fuel
    cost, every entry of the savings and their total, without any rounding
    error. *)
Theorem fleet_doubling_exact inp r1 r2 :
  1 <= fleet_size inp ->
  1 <= operating_days inp ->
  at_least_one (daily_consumption inp) = true ->
  at_least_one (fuel_price inp) = true ->
  (forall k, In k (keys applications) ->
     percent_in_range (effective_saving_percent (selections inp k)) = true) ->
  compute inp = Ok r1 ->
  compute (with_fleet_size inp (2 * fleet_size inp)) = Ok r2 ->
  F64.is_finite (totalSavingsAnnual r2) = true ->
  fleet_doubling r1 r2.
Proof.
  intros Hn Ho Hd Hp Hpct H1 H2 Hfin.
  apply compute_Ok_inv in H1. apply compute_Ok_inv in H2.
  destruct H1 as (b1 & Hb1 & Hl1 & Hbb1 & Ha1 & Ht1 & _).
  destruct H2 as (b2 & Hb2 & Hl2 & Hbb2 & Ha2 & Ht2 & _).
  cbn [with_fleet_size fleet_size daily_consumption operating_days fuel_price
       selections] in Hb2, Hl2, Ha2.
  assert (Hin : In "Hull Maintainance App"%string (keys applications))
    by (left; reflexivity).
  revert Hin Hpct Ha1 Ha2. generalize (keys applications).
  intros names Hin Hpct Ha1 Ha2.
  rewrite Ht2, Ha2, values_amounts_of in Hfin. unfold Py.sum in Hfin.
  set (f1 := fun k => amount_of b1 (effective_saving_percent (selections inp k))).
  set (f2 := fun k => amount_of b2 (effective_saving_percent (selections inp k))).
  fold f2 in Hfin.
  assert (Hb2fin : F64.is_finite b2 = true).
  { assert (Hh : F64.is_finite (f2 "Hull Maintainance App"%string) = true).
    { apply (fold_add_finite_elems _ _ _ Hfin). apply (in_map f2). exact Hin. }
    unfold f2, amount_of in Hh. rewrite of_Z_100 in Hh.
    apply div_by_finite_finite_l in Hh. apply mul_finite_l in Hh. exact Hh. }
  destruct (baseline_doubling _ _ _ _ _ _ Hn Ho Hd Hp Hb1 Hb2 Hb2fin) as [Eb Hpb].
  assert (Hf : forall k, In k names ->
                 F64.is_finite (f2 k) = true ->
                 f2 k = F64.double (f1 k) /\ zero_or_pos_mag (-1020) (f1 k)).
  { intros k Hk Hfk. unfold f1, f2 in *. rewrite Eb in Hfk |- *.
    apply amount_doubling; [exact Hpb|apply Hpct; exact Hk|exact Hfk]. }
  unfold fleet_doubling. rewrite Hl1, Hl2, Hbb1, Hbb2, Ht1, Ht2, Ha1, Ha2.
  split; [apply license_cost_annual_double|].
  split; [exact Eb|]. split.
  - unfold amounts_of. rewrite map_map. cbn [fst snd].
    apply map_ext_in. intros k Hk. f_equal.
    apply Hf; [exact Hk|].
    apply (fold_add_finite_elems _ _ _ Hfin). apply (in_map f2). exact Hk.
  - rewrite !values_amounts_of. unfold Py.sum. fold f1 f2.
    apply sum_doubling; [reflexivity|exact I|exact Hf|exact Hfin].
Qed.

Lemma fleet_doubling_exact_witness :
  exists r1 r2,
    compute scenario = Ok r1 /\
    compute (with_fleet_size scenario 20) = Ok r2 /\
    fleet_doubling r1 r2.
Proof.
  assert (H : exists r1 r2,
            compute scenario = Ok r1 /\
            compute (with_fleet_size scenario (2 * fleet_size scenario)) = Ok r2 /\
            F64.is_finite (totalSavingsAnnual r2) = true).
  { eexists. eexists.
    split; [vm_compute; reflexivity|].
    split; [vm_compute; reflexivity|].
    vm_compute; reflexivity. }
  destruct H as (r1 & r2 & Hr1 & Hr2 & Hf).
  exists r1, r2. split; [exact Hr1|]. split; [exact Hr2|].
  apply (fleet_doubling_exact scenario r1 r2); try assumption.
  - cbn; lia.
  - cbn; lia.
  - reflexivity.
  - reflexivity.
  - intros k Hk. cbn in Hk.
    repeat (destruct Hk as [<-|Hk]; [reflexivity|]). contradiction.
Defined.

(** Doubling is not exact at the edge of the range: one vessel burning
    1e308 tons a day gives a finite baseline and a zero saving for the
    unselected Voyage Optimization; two vessels give an infinite baseline
    and NaN. *)
Lemma fleet_doubling_overflow :
  exists r1 r2,
    compute near_overflow = Ok r1 /\
    compute (with_fleet_size near_overflow (2 * fleet_size near_overflow)) = Ok r2 /\
    dict_get (perApplicationSavings r1) "Voyage Optimization App" = Some F64.pos_zero /\
    dict_get (perApplicationSavings r2) "Voyage Optimization App" = Some F64.nan /\
    F64.is_finite (totalSavingsAnnual r1) = true /\
    F64.is_nan (totalSavingsAnnual r2) = true /\
    ~ fleet_doubling r1 r2.
Proof.
  eexists. eexists.
  split; [vm_compute; reflexivity|].
  split; [vm_compute; reflexivity|].
  split; [reflexivity|]. split; [reflexivity|].
  split; [reflexivity|]. split; [reflexivity|].
  intros (_ & _ & _ & H). vm_compute in H. discriminate.
Qed.

(** * The savings charts *)

Lemma dict_get_filter_tabulate (f : string -> float) (p : float -> bool) names k :
  dict_get (filter (fun kv => p (snd kv)) (map (fun n => (n, f n)) names)) k =
    if in_dec string_dec k names then (if p (f k) then Some (f k) else None)
    else None.
Proof.
  induction names as [|a names IH]; [reflexivity|].
  cbn [map filter snd].
  destruct (in_dec string_dec k (a :: names)) as [Hin|Hnin].
  - destruct (string_dec k a) as [->|Hne].
    + destruct (p (f a)) eqn:Ep.
      * cbn [dict_get]. rewrite String.eqb_refl. reflexivity.
      * rewrite IH. destruct (in_dec string_dec a names); reflexivity.
    + assert (Hin' : In k names) by (destruct Hin; [congruence|assumption]).
      assert (IH' : dict_get (filter (fun kv => p (snd kv))
                                (map (fun n => (n, f n)) names)) k =
                    if p (f k) then Some (f k) else None).
      { rewrite IH. destruct (in_dec string_dec k names); [reflexivity|contradiction]. }
      destruct (p (f a)); [|exact IH'].
      cbn [dict_get]. destruct (String.eqb_spec k a); [contradiction|exact IH'].
  - assert (Hne : k <> a) by (intros ->; apply Hnin; left; reflexivity).
    assert (IH' : dict_get (filter (fun kv => p (snd kv))
                              (map (fun n => (n, f n)) names)) k = None).
    { rewrite IH. destruct (in_dec string_dec k names) as [Hin|_]; [|reflexivity].
      exfalso. apply Hnin. right; exact Hin. }
    destruct (p (f a)); [|exact IH'].
    cbn [dict_get]. destruct (String.eqb_spec k a); [contradiction|exact IH'].
Qed.

Lemma gt_zero_zero_or_nan x : zero_or_nan x = true -> float_gt_zero x = false.
Proof. destruct x as [[]| | |]; try discriminate; reflexivity. Qed.

Lemma amount_of_unselected bfc : float_gt_zero (amount_of bfc F64.pos_zero) = false.
Proof.
  apply gt_zero_zero_or_nan. unfold amount_of. rewrite of_Z_100.
  apply div_zero_or_nan. destruct bfc as [[]|[]| |[] m e]; reflexivity.
Qed.

(** X2: an unselected application is never one of the bars of the savings
    chart, whatever the inputs are. *)
Theorem chart_leaves_out_unselected inp r k :
  compute inp = Ok r ->
  selected (selections inp k) = false ->
  dict_get (filtered_app_savings (perApplicationSavings r)) k = None.
Proof.
  intros H Hs. apply compute_Ok_inv in H.
  destruct H as (bfc & _ & _ & _ & Ha & _). rewrite Ha.
  unfold filtered_app_savings, amounts_of.
  rewrite (dict_get_filter_tabulate
             (fun k => amount_of bfc (effective_saving_percent (selections inp k)))
             float_gt_zero).
  destruct (in_dec string_dec k (keys applications)); [|reflexivity].
  unfold effective_saving_percent. rewrite Hs.
  rewrite amount_of_unselected. reflexivity.
Qed.

Lemma chart_leaves_out_unselected_witness :
  exists r, compute overflow_case = Ok r /\
    dict_get (filtered_app_savings (perApplicationSavings r))
      "Voyage Optimization App" = None.
Proof.
  assert (H : exists r, compute overflow_case = Ok r).
  { eexists. vm_compute. reflexivity. }
  destruct H as [r Hr]. exists r. split; [exact Hr|].
  apply (chart_leaves_out_unselected overflow_case r _ Hr). reflexivity.
Defined.

Lemma filter_tabulate_none (f : string -> float) (p : float -> bool) names :
  (forall k, In k names -> p (f k) = false) ->
  filter (fun kv => p (snd kv)) (map (fun n => (n, f n)) names) = [].
Proof.
  induction names as [|a names IH]; intros H; [reflexivity|].
  cbn [map filter snd]. rewrite (H a) by (left; reflexivity).
  apply IH. intros k Hk. apply H. right; exact Hk.
Qed.

(** X3: when no application is selected, both panels show the message
    instead of a chart, whatever the other inputs are. *)
Theorem nothing_selected_shows_message inp r :
  compute inp = Ok r ->
  no_application_selected inp ->
  savings_panel (perApplicationSavings r) = InfoMessage.
Proof.
  intros H Hn. apply compute_Ok_inv in H.
  destruct H as (bfc & _ & _ & _ & Ha & _). rewrite Ha.
  unfold savings_panel, filtered_app_savings, amounts_of.
  rewrite (filter_tabulate_none
             (fun k => amount_of bfc (effective_saving_percent (selections inp k)))
             float_gt_zero); [reflexivity|].
  intros k Hk. unfold effective_saving_percent. rewrite (Hn k Hk).
  apply amount_of_unselected.
Qed.

Lemma nothing_selected_shows_message_witness :
  exists r, compute overflow_nothing_selected = Ok r /\
            savings_panel (perApplicationSavings r) = InfoMessage.
Proof.
  assert (H : exists r, compute overflow_nothing_selected = Ok r).
  { eexists. vm_compute. reflexivity. }
  destruct H as [r Hr]. exists r. split; [exact Hr|].
  apply (nothing_selected_shows_message overflow_nothing_selected r Hr).
  intros k _. reflexivity.
Defined.

Lemma amount_of_positive b p :
  pos_mag 1 b -> pos_mag (-1013) p -> float_gt_zero (amount_of b p) = true.
Proof.
  intros Hb Hp.
  destruct b as [| | |[] mb eb]; try contradiction.
  destruct p as [| | |[] mp ep]; try contradiction.
  cbn [pos_mag] in Hb, Hp. pose proof (Zdigits2_mul_ge mb mp) as Hd.
  unfold amount_of. rewrite of_Z_100. unfold F64.mul, SFmul. cbn [xorb].
  destruct (binary_round_aux_big false (Zpos (mb * mp)) (eb + ep) loc_Exact)
    as [E|(q & e & E & Hm & _)]; try (cbn [Zdigits2]; lia); rewrite E.
  - reflexivity.
  - cbn [Zdigits2] in Hm.
    destruct (div_finite_big false q e false 7036874417766400 (-46))
      as [E2|(q2 & e2 & E2 & _)].
    + change (Z.pos (digits2_pos 7036874417766400)) with 53. lia.
    + rewrite E2. reflexivity.
    + rewrite E2. reflexivity.
Qed.

(** X4: over a baseline fuel cost of one dollar or more, a selected
    application with a percentage of at least 2^-1014 is a bar of the
    savings chart, with the saving the run credits it, and the chart is
    drawn. *)
Theorem chart_shows_selected inp r k :
  compute inp = Ok r ->
  In k (keys applications) ->
  selected (selections inp k) = true ->
  pos_mag 1 (baselineFuelCost r) ->
  pos_mag (-1013) (savingPercent (selections inp k)) ->
  dict_get (filtered_app_savings (perApplicationSavings r)) k =
    dict_get (perApplicationSavings r) k /\
  dict_get (perApplicationSavings r) k =
    Some (F64.div (F64.mul (baselineFuelCost r) (savingPercent (selections inp k)))
                  (F64.of_Z 100)) /\
  savings_panel (perApplicationSavings r) <> InfoMessage.
Proof.
  intros H Hk Hs Hb Hp. apply compute_Ok_inv in H.
  destruct H as (bfc & _ & _ & Hbb & Ha & _). rewrite Hbb in *. rewrite Ha.
  set (f := fun k => amount_of bfc (effective_saving_percent (selections inp k))).
  assert (Hf : f k = amount_of bfc (savingPercent (selections inp k))).
  { unfold f, effective_saving_percent. rewrite Hs. reflexivity. }
  assert (Hget : dict_get (amounts_of (selections inp) bfc (keys applications)) k =
                 Some (f k)).
  { unfold amounts_of. apply (dict_get_tabulate f). exact Hk. }
  assert (Hfil : dict_get (filtered_app_savings
                   (amounts_of (selections inp) bfc (keys applications))) k =
                 Some (f k)).
  { unfold filtered_app_savings, amounts_of.
    rewrite (dict_get_filter_tabulate f float_gt_zero).
    destruct (in_dec string_dec k (keys applications)); [|contradiction].
    rewrite Hf, amount_of_positive by assumption. reflexivity. }
  split; [rewrite Hfil, Hget; reflexivity|].
  split; [rewrite Hget, Hf; reflexivity|].
  unfold savings_panel.
  destruct (filtered_app_savings _) as [|kv d]; [discriminate Hfil|discriminate].
Qed.

Lemma chart_shows_selected_witness :
  exists r, compute scenario = Ok r /\
    dict_get (filtered_app_savings (perApplicationSavings r)) "Hull Maintainance App" =
      Some (F64.of_Z 2722500) /\
    savings_panel (perApplicationSavings r) <> InfoMessage.
Proof.
  assert (H : exists r, compute scenario = Ok r /\
                        pos_mag 1 (baselineFuelCost r) /\
                        dict_get (perApplicationSavings r) "Hull Maintainance App" =
                          Some (F64.of_Z 2722500)).
  { eexists. split; [vm_compute; reflexivity|]. split; [cbn; lia|reflexivity]. }
  destruct H as (r & Hr & Hb & Hv). exists r. split; [exact Hr|].
  destruct (chart_shows_selected scenario r "Hull Maintainance App" Hr) as (H1 & _ & H3).
  - left; reflexivity.
  - reflexivity.
  - exact Hb.
  - cbn. lia.
  - split; [rewrite H1; exact Hv|exact H3].
Defined.

(** * Which runs return *)

Section OverflowFacts.

Import F64.

Lemma Zdigits2_succ_le a : 0 <= a -> Zdigits2 (a + 1) <= Zdigits2 a + 1.
Proof.
  intros Ha. destruct (Z.eq_dec a 0) as [->|Hn]; [simpl; lia|].
  rewrite <- (Zdigits2_mul_pow2 a 1) by lia.
  apply Zdigits2_le. change (2 ^ 1) with 2. lia.
Qed.

Lemma shifted_e_eq m e :
  shifted_e m e = Z.max e (Z.max (Zdigits2 m + e - 53) (-1074)).
Proof. unfold shifted_e, shift_of. rewrite fexp_eq. lia. Qed.

(** A mantissa below [2^1023] does not round to an infinity. *)
Lemma binary_round_aux_no_overflow s m e l :
  0 < m -> -1074 < Zdigits2 m + e -> Zdigits2 m + e <= 1023 -> e <= 971 ->
  is_inf (binary_round_aux prec emax s m e l) = false.
Proof.
  intros Hm Hlo Hhi He.
  destruct (binary_round_aux_spec s m e l ltac:(lia)) as (m1 & Hr & ->).
  destruct (shifted_big m e Hm Hlo) as [Hp Hmag].
  pose proof (shifted_e_eq m e) as He1.
  assert (Hd1 : Zdigits2 m1 <= Zdigits2 (shifted_m m e) + 1).
  { destruct (Z.eq_dec m1 (shifted_m m e)) as [->|Hne]; [lia|].
    replace m1 with (shifted_m m e + 1) by lia. apply Zdigits2_succ_le. lia. }
  pose proof (shifted_e_eq m1 (shifted_e m e)) as He2.
  destruct (shifted_m m1 (shifted_e m e)); try reflexivity.
  change (emax - prec) with 971.
  destruct (Z.leb_spec (shifted_e m1 (shifted_e m e)) 971); [reflexivity|lia].
Qed.

Lemma binary_round_no_overflow s q e :
  -1074 < Zpos (digits2_pos q) + e -> Zpos (digits2_pos q) + e <= 1023 ->
  is_inf (binary_round prec emax s q e) = false.
Proof.
  intros Hlo Hhi. unfold binary_round.
  destruct (shl_align_spec q e (fexp prec emax (Z.pos (digits2_pos q) + e)))
    as (Hmag & Hez & _).
  rewrite fexp_eq in Hez.
  destruct (shl_align q e _) as [mz ez]. cbn [fst snd] in *.
  cbn [Zdigits2] in Hmag.
  apply binary_round_aux_no_overflow; cbn [Zdigits2]; lia.
Qed.

Lemma of_Z_no_overflow n : Z.abs n < 2 ^ 1023 -> is_inf (of_Z n) = false.
Proof.
  intros Hn. destruct n as [|q|q]; [reflexivity| |];
    unfold of_Z, binary_normalize;
    pose proof (Zdigits2_bounds (Zpos q) ltac:(lia)) as [Hlo _];
    cbn [Zdigits2] in Hlo;
    assert (Hd : Zpos (digits2_pos q) - 1 < 1023)
      by (apply (Z.pow_lt_mono_r_iff 2); [lia|lia|cbn [Z.abs] in Hn; lia]);
    apply binary_round_no_overflow; lia.
Qed.

End OverflowFacts.

Lemma float_of_int_returns n :
  Z.abs n < 2 ^ 1023 -> float_of_int n = Ok (F64.of_Z n).
Proof.
  intros Hn. unfold float_of_int. rewrite (of_Z_no_overflow n Hn). reflexivity.
Qed.

Lemma pow_1000_bound n k :
  Z.abs n < 2 ^ 1000 -> 0 <= k <= 2 ^ 23 -> Z.abs (n * k) < 2 ^ 1023.
Proof.
  intros Hn Hk. rewrite Z.abs_mul. rewrite (Z.abs_eq k) by lia.
  change (2 ^ 1023) with (2 ^ 1000 * 2 ^ 23).
  pose proof (Z.abs_nonneg n).
  assert (Z.abs n * k <= Z.abs n * 2 ^ 23) by (apply Z.mul_le_mono_nonneg_l; lia).
  assert (Z.abs n * 2 ^ 23 < 2 ^ 1000 * 2 ^ 23).
  { apply Z.mul_lt_mono_pos_r; [reflexivity|exact Hn]. }
  lia.
Qed.

Lemma baseline_fuel_cost_returns f d o p :
  Z.abs f < 2 ^ 1023 -> Z.abs o < 2 ^ 1023 ->
  exists b, baseline_fuel_cost f d o p = Ok b.
Proof.
  intros Hf Ho. unfold baseline_fuel_cost, int_mul_float, float_mul_int.
  rewrite (float_of_int_returns f Hf), (float_of_int_returns o Ho).
  cbn [bind]. eexists; reflexivity.
Qed.

Lemma payback_years_returns lca total :
  Z.abs lca < 2 ^ 1023 -> exists py, payback_years lca total = Ok py.
Proof.
  intros Hl. unfold payback_years, float_bool, int_div_float.
  destruct (F64.is_zero total) eqn:Ez; cbn [negb]; [eexists; reflexivity|].
  rewrite (float_of_int_returns lca Hl). cbn [bind].
  unfold float_truediv. rewrite Ez. eexists; reflexivity.
Qed.

Lemma roi_percent_returns total lc :
  Z.abs lc < 2 ^ 1023 -> exists roi, roi_percent total lc = Ok roi.
Proof.
  intros Hl. unfold roi_percent, int_bool.
  destruct (Z.eqb_spec lc 0) as [E|Hn]; cbn [negb]; [eexists; reflexivity|].
  unfold float_sub_int, float_div_int.
  rewrite (float_of_int_returns lc Hl). cbn [bind].
  unfold float_truediv.
  rewrite (float_of_int_nonzero lc _ Hn (float_of_int_returns lc Hl)).
  cbn [bind]. rewrite float_mul_int_100. eexists; reflexivity.
Qed.

Lemma roi_year_2_returns total lca :
  lca <> 0 -> Z.abs (lca * 2) < 2 ^ 1023 ->
  exists roi, roi_year_2 total lca = Ok roi.
Proof.
  intros Hn Hl. unfold roi_year_2. rewrite float_mul_int_2. cbn [bind].
  unfold float_sub_int, float_div_int.
  rewrite (float_of_int_returns (lca * 2) Hl). cbn [bind].
  unfold float_truediv.
  rewrite (float_of_int_nonzero (lca * 2) _ ltac:(lia) (float_of_int_returns _ Hl)).
  cbn [bind]. rewrite float_mul_int_100. eexists; reflexivity.
Qed.

Lemma three_year_view_returns lca total roi fs er :
  lca <> 0 -> Z.abs (lca * 3) < 2 ^ 1023 ->
  exists t, three_year_view lca total roi fs er = Ok t.
Proof.
  intros Hn Hl. unfold three_year_view.
  rewrite !float_mul_int_3, !float_mul_int_2. cbn [bind].
  destruct (roi_percent_returns (F64.mul total (F64.of_Z 3)) (lca * 3) Hl) as [r3 ->].
  cbn [bind].
  destruct (roi_year_2_returns total lca Hn ltac:(lia)) as [r2 ->].
  cbn [bind]. eexists; reflexivity.
Qed.

Lemma license_cost_annual_bound n :
  Z.abs n < 2 ^ 1000 ->
  Z.abs (license_cost_annual n) < 2 ^ 1023 /\
  Z.abs (license_cost_annual n * 3) < 2 ^ 1023.
Proof.
  intros Hn. unfold license_cost_annual, LICENSE_COST_PER_VESSEL_PER_MONTH.
  replace (n * 300 * 12) with (n * 3600) by lia.
  replace (n * 3600 * 3) with (n * 10800) by lia.
  split; apply pow_1000_bound; try assumption; split; try lia;
    apply Z.lt_le_incl; reflexivity.
Qed.

(** X5: with a fleet size that is not zero and below 2^1000 in magnitude,
    a number of operating days below 2^1000 in magnitude and a fuel price
    that is not zero, the run returns its metrics: it raises nothing,
    whatever floats the consumption, the price and the sliders hold. *)
Theorem compute_returns inp :
  fleet_size inp <> 0 ->
  Z.abs (fleet_size inp) < 2 ^ 1000 ->
  Z.abs (operating_days inp) < 2 ^ 1000 ->
  F64.is_zero (fuel_price inp) = false ->
  exists r, compute inp = Ok r.
Proof.
  intros Hn Hf Ho Hp. rewrite compute_eq.
  destruct (license_cost_annual_bound _ Hf) as [Hl Hl3].
  assert (Hl0 : license_cost_annual (fleet_size inp) <> 0).
  { unfold license_cost_annual, LICENSE_COST_PER_VESSEL_PER_MONTH. lia. }
  assert (Hf' : Z.abs (fleet_size inp) < 2 ^ 1023).
  { eapply Z.lt_trans; [exact Hf|reflexivity]. }
  assert (Ho' : Z.abs (operating_days inp) < 2 ^ 1023).
  { eapply Z.lt_trans; [exact Ho|reflexivity]. }
  destruct (baseline_fuel_cost_returns (fleet_size inp) (daily_consumption inp)
              (operating_days inp) (fuel_price inp) Hf' Ho') as [bfc ->].
  cbn [bind]. unfold metrics_after_loop.
  set (lca := license_cost_annual (fleet_size inp)) in *.
  set (amounts := amounts_of (selections inp) bfc (keys applications)).
  set (total := Py.sum (values amounts)).
  destruct (payback_years_returns lca total Hl) as [py ->]. cbn [bind].
  destruct (payback_months_returns py) as [pm ->]. cbn [bind].
  destruct (roi_percent_returns total lca Hl) as [roi ->]. cbn [bind].
  unfold fuel_saved, float_truediv. rewrite Hp. cbn [bind].
  destruct (view_3_years inp).
  - destruct (three_year_view_returns lca total roi
                (F64.div (Py.sum (values amounts)) (fuel_price inp))
                (emissions_reduced (F64.div (Py.sum (values amounts)) (fuel_price inp)))
                Hl0 Hl3) as [t ->].
    cbn [bind]. eexists; reflexivity.
  - cbn [bind]. eexists; reflexivity.
Qed.

Lemma compute_returns_witness : exists r, compute overflow_case = Ok r.
Proof.
  apply compute_returns.
  - discriminate.
  - vm_compute. reflexivity.
  - vm_compute. reflexivity.
  - reflexivity.
Defined.

(** X6: a fuel price of zero, [0.0] or [-0.0], makes the run fail at line
    216 with [ZeroDivisionError], for every fleet size and number of days
    below 2^1000 in magnitude. *)
Theorem zero_fuel_price_raises inp :
  F64.is_zero (fuel_price inp) = true ->
  Z.abs (fleet_size inp) < 2 ^ 1000 ->
  Z.abs (operating_days inp) < 2 ^ 1000 ->
  compute inp = Raise ZeroDivisionError.
Proof.
  intros Hp Hf Ho. rewrite compute_eq.
  destruct (license_cost_annual_bound _ Hf) as [Hl _].
  assert (Hf' : Z.abs (fleet_size inp) < 2 ^ 1023).
  { eapply Z.lt_trans; [exact Hf|reflexivity]. }
  assert (Ho' : Z.abs (operating_days inp) < 2 ^ 1023).
  { eapply Z.lt_trans; [exact Ho|reflexivity]. }
  destruct (baseline_fuel_cost_returns (fleet_size inp) (daily_consumption inp)
              (operating_days inp) (fuel_price inp) Hf' Ho') as [bfc ->].
  cbn [bind]. unfold metrics_after_loop.
  set (lca := license_cost_annual (fleet_size inp)) in *.
  set (amounts := amounts_of (selections inp) bfc (keys applications)).
  set (total := Py.sum (values amounts)).
  destruct (payback_years_returns lca total Hl) as [py ->]. cbn [bind].
  destruct (payback_months_returns py) as [pm ->]. cbn [bind].
  destruct (roi_percent_returns total lca Hl) as [roi ->]. cbn [bind].
  unfold fuel_saved, float_truediv. rewrite Hp. reflexivity.
Qed.

Lemma zero_fuel_price_raises_witness :
  compute scenario_zero_price = Raise ZeroDivisionError.
Proof.
  apply zero_fuel_price_raises.
  - reflexivity.
  - vm_compute. reflexivity.
  - vm_compute. reflexivity.
Defined.

Section TooLarge.

Import F64.

(** An integer of [2^1024] or more has no float. *)
Lemma of_Z_overflow n : 2 ^ 1024 <= n -> of_Z n = S754_infinity false.
Proof.
  intros Hn. destruct n as [|q|q]; try (exfalso; lia).
  unfold of_Z, binary_normalize.
  pose proof (Zdigits2_bounds (Zpos q) ltac:(lia)) as [_ Hhi].
  cbn [Zdigits2] in Hhi.
  assert (Hd : 1024 < Zpos (digits2_pos q)).
  { apply (Z.pow_lt_mono_r_iff 2); lia. }
  destruct (binary_round_big false q 0 ltac:(lia)) as [E|(p & e & E & Hm & Hp & He)].
  - exact E.
  - exfalso. lia.
Qed.

End TooLarge.

(** X7: a fleet size of 2^1024 or more cannot be converted to a float, and
    the run fails at line 198 with [OverflowError]. *)
Theorem huge_fleet_raises inp :
  2 ^ 1024 <= fleet_size inp -> compute inp = Raise OverflowError.
Proof.
  intros Hn. rewrite compute_eq.
  unfold baseline_fuel_cost, int_mul_float, float_of_int.
  rewrite (of_Z_overflow _ Hn). reflexivity.
Qed.

Lemma huge_fleet_raises_witness :
  compute (with_fleet_size scenario (2 ^ 1024)) = Raise OverflowError.
Proof.
  apply huge_fleet_raises. cbn [with_fleet_size fleet_size]. apply Z.le_refl.
Defined.

(** ** The errors of a run *)

Lemma bind_Raise_inv {A B : Type} (c : result A) (k : A -> result B) e :
  bind c k = Raise e -> c = Raise e \/ exists a, c = Ok a /\ k a = Raise e.
Proof.
  destruct c as [a|e0]; cbn [bind]; intros H.
  - right. exists a. split; [reflexivity|exact H].
  - left. injection H as ->. reflexivity.
Qed.

Lemma float_truediv_Raise x y e :
  float_truediv x y = Raise e -> e = ZeroDivisionError.
Proof.
  unfold float_truediv. destruct (F64.is_zero y); [|discriminate].
  intros H. injection H as <-. reflexivity.
Qed.

Lemma float_mul_int_Raise x n e : float_mul_int x n = Raise e -> e = OverflowError.
Proof.
  unfold float_mul_int. intros H. apply bind_Raise_inv in H.
  destruct H as [H|(a & _ & H)]; [exact (float_of_int_Raise _ _ H)|discriminate].
Qed.

Lemma float_sub_int_Raise x n e : float_sub_int x n = Raise e -> e = OverflowError.
Proof.
  unfold float_sub_int. intros H. apply bind_Raise_inv in H.
  destruct H as [H|(a & _ & H)]; [exact (float_of_int_Raise _ _ H)|discriminate].
Qed.

Lemma float_div_int_Raise x n e :
  float_div_int x n = Raise e -> e = OverflowError \/ e = ZeroDivisionError.
Proof.
  unfold float_div_int. intros H. apply bind_Raise_inv in H.
  destruct H as [H|(a & _ & H)].
  - left. exact (float_of_int_Raise _ _ H).
  - right. exact (float_truediv_Raise _ _ _ H).
Qed.

Lemma baseline_fuel_cost_Raise f d o p e :
  baseline_fuel_cost f d o p = Raise e -> e = OverflowError.
Proof.
  unfold baseline_fuel_cost, int_mul_float. intros H.
  apply bind_Raise_inv in H. destruct H as [H|(a & _ & H)].
  - apply bind_Raise_inv in H. destruct H as [H|(a & _ & H)];
      [exact (float_of_int_Raise _ _ H)|discriminate].
  - apply bind_Raise_inv in H. destruct H as [H|(b & _ & H)];
      [exact (float_mul_int_Raise _ _ _ H)|discriminate].
Qed.

Lemma payback_years_Raise lca total e :
  payback_years lca total = Raise e -> e = OverflowError \/ e = ZeroDivisionError.
Proof.
  unfold payback_years, int_div_float.
  destruct (float_bool total); [|discriminate]. intros H.
  apply bind_Raise_inv in H. destruct H as [H|(a & _ & H)].
  - left. exact (float_of_int_Raise _ _ H).
  - right. exact (float_truediv_Raise _ _ _ H).
Qed.

Lemma roi_percent_Raise total lc e :
  roi_percent total lc = Raise e -> e = OverflowError \/ e = ZeroDivisionError.
Proof.
  unfold roi_percent. destruct (int_bool lc); [|discriminate]. intros H.
  apply bind_Raise_inv in H. destruct H as [H|(d & _ & H)].
  - left. exact (float_sub_int_Raise _ _ _ H).
  - apply bind_Raise_inv in H. destruct H as [H|(q & _ & H)].
    + exact (float_div_int_Raise _ _ _ H).
    + left. exact (float_mul_int_Raise _ _ _ H).
Qed.

Lemma roi_year_2_Raise total lca e :
  roi_year_2 total lca = Raise e -> e = OverflowError \/ e = ZeroDivisionError.
Proof.
  unfold roi_year_2. intros H.
  apply bind_Raise_inv in H. destruct H as [H|(s & _ & H)].
  - left. exact (float_mul_int_Raise _ _ _ H).
  - apply bind_Raise_inv in H. destruct H as [H|(d & _ & H)].
    + left. exact (float_sub_int_Raise _ _ _ H).
    + apply bind_Raise_inv in H. destruct H as [H|(q & _ & H)].
      * exact (float_div_int_Raise _ _ _ H).
      * left. exact (float_mul_int_Raise _ _ _ H).
Qed.

Lemma three_year_view_Raise lca total roi fs er e :
  three_year_view lca total roi fs er = Raise e ->
  e = OverflowError \/ e = ZeroDivisionError.
Proof.
  unfold three_year_view. rewrite !float_mul_int_3, !float_mul_int_2.
  cbn [bind]. intros H.
  apply bind_Raise_inv in H. destruct H as [H|(r3 & _ & H)].
  - exact (roi_percent_Raise _ _ _ H).
  - apply bind_Raise_inv in H. destruct H as [H|(r2 & _ & H)].
    + exact (roi_year_2_Raise _ _ _ H).
    + discriminate.
Qed.

Lemma metrics_after_loop_Raise inp lca bfc amounts total e :
  metrics_after_loop inp lca bfc amounts total = Raise e ->
  e = OverflowError \/ e = ZeroDivisionError.
Proof.
  unfold metrics_after_loop. intros H.
  apply bind_Raise_inv in H. destruct H as [H|(py & _ & H)].
  - exact (payback_years_Raise _ _ _ H).
  - destruct (payback_months_returns py) as [pm Hpm]. rewrite Hpm in H.
    cbn [bind] in H.
    apply bind_Raise_inv in H. destruct H as [H|(roi & _ & H)].
    + exact (roi_percent_Raise _ _ _ H).
    + apply bind_Raise_inv in H. destruct H as [H|(fs & _ & H)].
      * right. exact (float_truediv_Raise _ _ _ H).
      * apply bind_Raise_inv in H. destruct H as [H|(t3 & _ & H)]; [|discriminate].
        destruct (view_3_years inp); [|discriminate].
        apply bind_Raise_inv in H. destruct H as [H|(t & _ & H)]; [|discriminate].
        exact (three_year_view_Raise _ _ _ _ _ _ H).
Qed.

(** X8: the only errors a run raises are [OverflowError] and
    [ZeroDivisionError]: the look-ups [selected_apps[app_name]] and
    [app_savings[app_name]] of lines 186 and 205 always find their key. *)
Theorem compute_raises_only_arithmetic_errors inp e :
  compute inp = Raise e -> e = OverflowError \/ e = ZeroDivisionError.
Proof.
  rewrite compute_eq. generalize (keys applications). intros names H.
  apply bind_Raise_inv in H. destruct H as [H|(bfc & _ & H)].
  - left. exact (baseline_fuel_cost_Raise _ _ _ _ _ H).
  - exact (metrics_after_loop_Raise _ _ _ _ _ _ H).
Qed.

Lemma compute_raises_only_arithmetic_errors_witness :
  ZeroDivisionError = OverflowError \/ ZeroDivisionError = ZeroDivisionError.
Proof.
  apply (compute_raises_only_arithmetic_errors scenario_no_vessel).
  vm_compute. reflexivity.
Defined.

(** * Signs *)

Section SignFacts.

Import F64.

Lemma ge_zero_cases x :
  float_ge_zero x = true <->
  (exists s, x = S754_zero s) \/ (exists m e, x = S754_finite false m e) \/
  x = S754_infinity false.
Proof.
  split.
  - destruct x as [s|[]| |[] m e]; try discriminate; intros _.
    + left; exists s; reflexivity.
    + right; right; reflexivity.
    + right; left; exists m, e; reflexivity.
  - intros [[s ->]|[(m & e & ->)| ->]]; reflexivity.
Qed.

Lemma binary_round_aux_ge_zero m e l :
  0 <= m -> float_ge_zero (binary_round_aux prec emax false m e l) = true.
Proof.
  intros Hm.
  destruct (binary_round_aux_shape false m e l Hm) as [E|[E|(p & e2 & E & _)]];
    rewrite E; reflexivity.
Qed.

Lemma mul_ge_zero x y :
  is_finite x = true -> is_finite y = true ->
  float_ge_zero x = true -> float_ge_zero y = true ->
  float_ge_zero (mul x y) = true.
Proof.
  intros Fx Fy Hx Hy.
  destruct x as [sx|[]| |[] mx ex]; try discriminate;
    destruct y as [sy|[]| |[] my ey]; try discriminate; try reflexivity.
  unfold mul, SFmul. cbn [xorb]. apply binary_round_aux_ge_zero. lia.
Qed.

Lemma mul_by_pos_ge_zero x my ey :
  float_ge_zero x = true ->
  float_ge_zero (mul x (S754_finite false my ey)) = true.
Proof.
  intros Hx. destruct x as [sx|[]| |[] mx ex]; try discriminate; try reflexivity.
  unfold mul, SFmul. cbn [xorb]. apply binary_round_aux_ge_zero. lia.
Qed.

Lemma div_by_pos_ge_zero x my ey :
  float_ge_zero x = true ->
  float_ge_zero (div x (S754_finite false my ey)) = true.
Proof.
  intros Hx. destruct x as [sx|[]| |[] mx ex]; try discriminate; try reflexivity.
  destruct (div_finite_shape false mx ex false my ey) as [E|[E|(p & e2 & E & _)]];
    rewrite E; reflexivity.
Qed.

Lemma add_ge_zero x y :
  float_ge_zero x = true -> float_ge_zero y = true ->
  float_ge_zero (add x y) = true.
Proof.
  intros Hx Hy.
  destruct x as [sx|[]| |[] mx ex]; try discriminate;
    destruct y as [sy|[]| |[] my ey]; try discriminate; try reflexivity.
  - destruct sx, sy; reflexivity.
  - unfold add, SFadd. cbn [cond_Zopp Z.add binary_normalize].
    destruct (binary_round_shape false
                (fst (shl_align mx ex (Z.min ex ey)) + fst (shl_align my ey (Z.min ex ey)))
                (Z.min ex ey)) as [E|[E|(p & e2 & E & _)]];
      rewrite E; reflexivity.
Qed.

End SignFacts.

Lemma fold_add_ge_zero xs : forall acc,
  float_ge_zero acc = true ->
  (forall x, In x xs -> float_ge_zero x = true) ->
  float_ge_zero (fold_left F64.add xs acc) = true.
Proof.
  induction xs as [|x xs IH]; intros acc Ha Hxs; cbn [fold_left]; [exact Ha|].
  apply IH.
  - apply add_ge_zero; [exact Ha|]. apply Hxs. left; reflexivity.
  - intros y Hy. apply Hxs. right; exact Hy.
Qed.

Lemma CO2_FACTOR_value : CO2_FACTOR = S754_finite false 7012104619815862 (-51).
Proof. reflexivity. Qed.

(** X9: over a baseline fuel cost that is finite and not negative, with
    percentages that are finite and not negative, no saving is negative or
    NaN: every entry of the savings and their total are at least zero, and
    so are the fuel saved and the CO2 reduction when the fuel price is
    positive. *)
Theorem savings_never_negative inp r :
  compute inp = Ok r ->
  F64.is_finite (baselineFuelCost r) = true ->
  float_ge_zero (baselineFuelCost r) = true ->
  (forall k, In k (keys applications) ->
     F64.is_finite (effective_saving_percent (selections inp k)) = true /\
     float_ge_zero (effective_saving_percent (selections inp k)) = true) ->
  Forall (fun kv => float_ge_zero (snd kv) = true) (perApplicationSavings r) /\
  float_ge_zero (totalSavingsAnnual r) = true /\
  (F64.is_pos (fuel_price inp) = true ->
   float_ge_zero (fuelSavedTons r) = true /\
   float_ge_zero (emissionsReducedTons r) = true).
Proof.
  intros H Hfin Hge Hpct. apply compute_Ok_inv in H.
  destruct H as (bfc & _ & _ & Hb & Ha & Ht & _ & _ & _ & Hfs & Her & _).
  rewrite Hb in Hfin, Hge.
  assert (Hamt : forall k, In k (keys applications) ->
            float_ge_zero (amount_of bfc (effective_saving_percent (selections inp k)))
              = true).
  { intros k Hk. destruct (Hpct k Hk) as [Hf Hg].
    unfold amount_of. rewrite of_Z_100. apply div_by_pos_ge_zero.
    apply mul_ge_zero; assumption. }
  assert (Htot : float_ge_zero (totalSavingsAnnual r) = true).
  { rewrite Ht, Ha, values_amounts_of. apply fold_add_ge_zero; [reflexivity|].
    intros x Hx. apply in_map_iff in Hx. destruct Hx as (k & <- & Hk).
    apply Hamt. exact Hk. }
  split; [|split; [exact Htot|]].
  - rewrite Ha. unfold amounts_of. apply Forall_forall.
    intros kv Hkv. apply in_map_iff in Hkv. destruct Hkv as (k & <- & Hk).
    cbn [snd]. apply Hamt. exact Hk.
  - intros Hp. apply fuel_saved_Ok in Hfs. destruct Hfs as [_ Hfs].
    rewrite <- Ht in Hfs.
    destruct (fuel_price inp) as [| | |[] mp ep]; try discriminate.
    assert (Hf : float_ge_zero (fuelSavedTons r) = true).
    { rewrite Hfs. apply div_by_pos_ge_zero. exact Htot. }
    split; [exact Hf|].
    rewrite Her. unfold emissions_reduced. rewrite CO2_FACTOR_value.
    apply mul_by_pos_ge_zero. exact Hf.
Qed.

Lemma savings_never_negative_witness :
  exists r, compute scenario = Ok r /\
    Forall (fun kv => float_ge_zero (snd kv) = true) (perApplicationSavings r) /\
    float_ge_zero (totalSavingsAnnual r) = true /\
    float_ge_zero (fuelSavedTons r) = true /\
    float_ge_zero (emissionsReducedTons r) = true.
Proof.
  assert (H : exists r, compute scenario = Ok r /\
                        F64.is_finite (baselineFuelCost r) = true /\
                        float_ge_zero (baselineFuelCost r) = true).
  { eexists. split; [vm_compute; reflexivity|]. split; reflexivity. }
  destruct H as (r & Hr & Hf & Hg). exists r. split; [exact Hr|].
  destruct (savings_never_negative scenario r Hr Hf Hg) as (H1 & H2 & H3).
  - intros k Hk. cbn in Hk.
    repeat (destruct Hk as [<-|Hk]; [split; reflexivity|]). contradiction.
  - destruct (H3 eq_refl) as [H4 H5]. repeat split; assumption.
Defined.

(** X10: a total saving that is infinite gives a payback of zero years,
    and line 212 turns a payback of zero years into NaN months, not into
    zero months. *)
Theorem infinite_savings_payback lca total :
  F64.is_inf total = true ->
  Z.abs lca < 2 ^ 1023 ->
  exists py,
    payback_years lca total = Ok py /\
    F64.is_zero py = true /\
    payback_months py = Ok F64.nan.
Proof.
  intros Hinf Hl. destruct total as [|st| |]; try discriminate.
  unfold payback_years, int_div_float. cbn [float_bool F64.is_zero negb].
  rewrite (float_of_int_returns lca Hl). cbn [bind].
  unfold float_truediv. cbn [F64.is_zero].
  exists (F64.div (F64.of_Z lca) (S754_infinity st)). split; [reflexivity|].
  assert (Hz : F64.is_zero (F64.div (F64.of_Z lca) (S754_infinity st)) = true).
  { pose proof (of_Z_no_overflow lca Hl) as Hn.
    pose proof (binary_normalize_in_range lca 0) as _.
    destruct lca as [|q|q].
    - reflexivity.
    - destruct (of_Z_pos (Zpos q) ltac:(lia)) as [E|(p & e & E & _)];
        rewrite E in *; [discriminate|reflexivity].
    - destruct (of_Z_neg (Zneg q) ltac:(lia)) as [E|(p & e & E & _)];
        rewrite E in *; [discriminate|reflexivity]. }
  split; [exact Hz|].
  unfold payback_months, float_bool. rewrite Hz. reflexivity.
Qed.

Lemma infinite_savings_payback_witness :
  exists py,
    payback_years 36000 (S754_infinity false) = Ok py /\
    F64.is_zero py = true /\
    payback_months py = Ok F64.nan.
Proof.
  apply infinite_savings_payback.
  - reflexivity.
  - vm_compute. reflexivity.
Defined.

(** * What a run depends on, and what it keeps *)

(** X11: the savings percentage of an unselected application and the
    selections of names outside the catalog have no influence: two runs on
    the same fleet parameters whose check boxes agree on the catalog, and
    whose sliders agree for the selected applications, give the same
    outcome. *)
Theorem unselected_slider_is_ignored inp1 inp2 :
  view_3_years inp1 = view_3_years inp2 ->
  fleet_size inp1 = fleet_size inp2 ->
  fuel_price inp1 = fuel_price inp2 ->
  daily_consumption inp1 = daily_consumption inp2 ->
  operating_days inp1 = operating_days inp2 ->
  (forall k, In k (keys applications) ->
     selected (selections inp1 k) = selected (selections inp2 k) /\
     (selected (selections inp1 k) = true ->
      savingPercent (selections inp1 k) = savingPercent (selections inp2 k))) ->
  compute inp1 = compute inp2.
Proof.
  intros Hv Hf Hp Hd Ho Hs. rewrite !compute_eq.
  rewrite Hf, Hp, Hd, Ho.
  destruct (baseline_fuel_cost (fleet_size inp2) (daily_consumption inp2)
              (operating_days inp2) (fuel_price inp2)) as [bfc|e]; [|reflexivity].
  cbn [bind].
  assert (Ha : amounts_of (selections inp1) bfc (keys applications) =
               amounts_of (selections inp2) bfc (keys applications)).
  { unfold amounts_of. apply map_ext_in. intros k Hk.
    destruct (Hs k Hk) as [Hsel Hpct]. unfold effective_saving_percent.
    rewrite <- Hsel. destruct (selected (selections inp1 k)); [|reflexivity].
    rewrite (Hpct eq_refl). reflexivity. }
  rewrite Ha. unfold metrics_after_loop. rewrite Hv, Hp. reflexivity.
Qed.

Lemma unselected_slider_is_ignored_witness :
  compute scenario =
  compute {| view_3_years := false; fleet_size := 10;
             fuel_price := F64.dec 5500 1; daily_consumption := F64.dec 500 1;
             operating_days := 330;
             selections := fun k =>
               {| selected := selected (only_hull (F64.dec 30 1) k);
                  savingPercent := F64.dec 30 1 |} |}.
Proof.
  apply unselected_slider_is_ignored; try reflexivity.
  intros k Hk. cbn in Hk.
  repeat (destruct Hk as [<-|Hk];
          [split; [reflexivity|intros Hsel; first [discriminate Hsel|reflexivity]]|]).
  destruct Hk.
Defined.

(** X12: the savings of a run hold one entry for each application of the
    catalog, in the order of the catalog. *)
Theorem savings_keys_are_catalog inp r :
  compute inp = Ok r ->
  keys (perApplicationSavings r) = keys applications.
Proof.
  intros H. apply compute_Ok_inv in H.
  destruct H as (bfc & _ & _ & _ & Ha & _). rewrite Ha.
  apply keys_amounts_of.
Qed.

Lemma savings_keys_are_catalog_witness :
  exists r, compute overflow_case = Ok r /\
            keys (perApplicationSavings r) = keys applications.
Proof.
  assert (H : exists r, compute overflow_case = Ok r).
  { eexists. vm_compute. reflexivity. }
  destruct H as [r Hr]. exists r. split; [exact Hr|].
  exact (savings_keys_are_catalog overflow_case r Hr).
Defined.

(** X13: a run that returns its three-year view has a fleet size that is
    not zero, since line 230 divides by the licence cost of two years; the
    guard of line 223 is then never taken, and for finite savings over
    three years the three-year ROI is the quotient it guards and not NaN. *)
Theorem three_year_roi_is_defined inp r t :
  compute inp = Ok r ->
  threeYear r = Some t ->
  fleet_size inp <> 0 /\
  license_cost_total t <> 0 /\
  (F64.is_finite (total_savings_3yr t) = true ->
   roi_percent_3yr t =
     F64.mul (F64.div (F64.sub (total_savings_3yr t) (F64.of_Z (license_cost_total t)))
                      (F64.of_Z (license_cost_total t))) (F64.of_Z 100) /\
   F64.is_nan (roi_percent_3yr t) = false).
Proof.
  intros H Ht. apply compute_Ok_inv in H.
  destruct H as (bfc & _ & Hl & _ & _ & _ & _ & _ & _ & _ & _ & H3).
  destruct (view_3_years inp).
  2:{ rewrite H3 in Ht. discriminate. }
  destruct H3 as (t' & Hview & Ht'). rewrite Ht' in Ht. injection Ht as ->.
  assert (Hn : licenseCostAnnual r <> 0).
  { intros E. rewrite E in Hview. rewrite three_year_view_zero in Hview.
    discriminate. }
  apply three_year_view_Ok in Hview.
  destruct Hview as (H1 & H2 & Hroi & _).
  assert (Hf : fleet_size inp <> 0).
  { intros E. apply Hn. rewrite Hl, E. reflexivity. }
  split; [exact Hf|]. split; [rewrite H1; lia|].
  intros Hfin. rewrite H1, H2 in *.
  apply roi_percent_of_finite; [lia|exact Hfin|exact Hroi].
Qed.

Lemma three_year_roi_is_defined_witness :
  exists r t,
    compute scenario_above_max = Ok r /\ threeYear r = Some t /\
    F64.is_nan (roi_percent_3yr t) = false.
Proof.
  assert (H : exists r t, compute scenario_above_max = Ok r /\
                          threeYear r = Some t /\
                          F64.is_finite (total_savings_3yr t) = true).
  { eexists. eexists. split; [vm_compute; reflexivity|].
    split; reflexivity. }
  destruct H as (r & t & Hr & Ht & Hf). exists r, t.
  split; [exact Hr|]. split; [exact Ht|].
  destruct (three_year_roi_is_defined scenario_above_max r t Hr Ht) as (_ & _ & H).
  exact (proj2 (H Hf)).
Defined.
